(** * firebase-server-sdk-go: tokens, session cookies and the Auth registry

    A shallow embedding of the Go package [firebase]
    (token.go, session_api_request.go, auth.go) and the properties of its
    specification that concern the Token model, the session-cookie manager and
    the Auth facade.

    Go values are modelled as follows.
    - [int64] is a [Z]; arithmetic that can leave the 64-bit range is wrapped
      with [int64_wrap].
    - [float64] is a [spec_float] of precision 53 (IEEE 754 binary64).
    - [interface{}] is the tagged union [iface] of the dynamic types that
      occur in the package.
    - [map[string]interface{}] is an [option (gmap string iface)]; [None] is
      the nil map.
    - a [(T, error)] result is a [result T]; a bare [error] is an
      [option error], [None] being nil.
    - calls to collaborators that live outside the modelled files are fields
      of an environment record and are logged in a trace.
    - a pointer argument or receiver ([*Token], [*App], [*Auth]) is the value
      it points to: the functions are modelled on pointers that are not nil. *)

From Stdlib Require Import ZArith Lia List.
From Stdlib Require Import Floats.SpecFloat.
From stdpp Require Import base option gmap strings.

Local Open Scope string_scope.
Local Open Scope Z_scope.
Local Open Scope list_scope.

(** ** Machine integers *)

Definition int64_min : Z := - 2 ^ 63.
Definition int64_max : Z := 2 ^ 63 - 1.

Definition in_int64 (z : Z) : Prop := int64_min <= z <= int64_max.

(** Two's complement wrap-around of a mathematical integer into [int64]. *)
Definition int64_wrap (z : Z) : Z := (z + 2 ^ 63) mod 2 ^ 64 - 2 ^ 63.

(** ** float64, as far as [time.Duration.Seconds] needs it *)

Definition float64 : Type := spec_float.

Definition f64_prec : Z := 53.
Definition f64_emax : Z := 1024.

(** [float64(z)] for an integer [z]: round to nearest, ties to even. *)
Definition float64_of_int (z : Z) : float64 :=
  binary_normalize f64_prec f64_emax z 0 false.

Definition f64_add : float64 -> float64 -> float64 := SFadd f64_prec f64_emax.
Definition f64_div : float64 -> float64 -> float64 := SFdiv f64_prec f64_emax.

(** [int64(f)] for a finite [f]: the fraction is discarded (truncation
    towards zero).  Go leaves the conversion of NaN, of the infinities and of
    values outside [int64] to the implementation; the model returns the
    smallest [int64] there, as amd64 does. *)
Definition int64_of_float64 (f : float64) : Z :=
  match f with
  | S754_zero _ => 0
  | S754_finite s m e =>
      let mag := match e with
                 | Z0 => Zpos m
                 | Zpos p => Zpos m * 2 ^ Zpos p
                 | Zneg p => Zpos m / 2 ^ Zpos p
                 end in
      let v := if s then - mag else mag in
      if (int64_min <=? v) && (v <=? int64_max) then v else int64_min
  | S754_infinity _ | S754_nan => int64_min
  end.


(** ** Errors *)

(** The error values of the package.  [errors_New] is [errors.New], compared
    by message; [errors_Wrap] is [errors.Wrap] of github.com/pkg/errors. *)
Inductive error : Type :=
| errIllegalType
| errMissingRequestTarget
| AuthErrUserNotFound
| errors_New (msg : string)
| errors_Wrap (cause : error) (msg : string).

Inductive result (A : Type) : Type :=
| Ok (a : A)
| Err (e : error).
Arguments Ok {A} a.
Arguments Err {A} e.

Definition is_Ok {A} (r : result A) : bool :=
  match r with Ok _ => true | Err _ => false end.

(** What a Go call does when a run-time panic is possible. *)
Inductive outcome (A : Type) : Type :=
| Returns (a : A)
| Panics.
Arguments Returns {A} a.
Arguments Panics {A}.

(** ** Wire types and dynamically typed values *)

(** Modelled from the spec: the declarations of [getAccountInfoRequest] and
    [getAccountInfoResponse] are not among the source files; the validators
    only take the lengths of [LocalID], [Email] and [Users]. *)
Record getAccountInfoRequest : Type := {
  LocalID : list string;
  Email : list string
}.

(** Modelled from the spec: the Account Record is a collaborator type: user-id,
    email and the tokens-valid-after timestamp in milliseconds. *)
Record UserRecord : Type := {
  ur_UID : string;
  ur_Email : string;
  TokensValidAfterMillis : Z
}.

Record getAccountInfoResponse : Type := {
  Users : list UserRecord
}.

Record createSessionCookieRequest : Type := {
  IDToken : string;
  Duration : Z
}.

Record createSessionCookieResponse : Type := {
  SessionCookie : string
}.

(** [interface{}]: a value together with its dynamic type. *)
Inductive iface : Type :=
| i_nil
| i_int64 (n : Z)
| i_float64 (f : float64)
| i_string (s : string)
| i_bool (b : bool)
| i_getAccountInfoRequest (r : getAccountInfoRequest)
| i_getAccountInfoResponse (r : getAccountInfoResponse)
| i_createSessionCookieRequest (r : createSessionCookieRequest)
| i_createSessionCookieResponse (r : createSessionCookieResponse).

(** Boxing of a typed pointer into [interface{}], as at a call of
    [h.call(api, req, resp)]. *)
Class Boxed (A : Type) : Type := box : A -> iface.

#[export] Instance Boxed_getAccountInfoRequest : Boxed getAccountInfoRequest :=
  i_getAccountInfoRequest.
#[export] Instance Boxed_getAccountInfoResponse : Boxed getAccountInfoResponse :=
  i_getAccountInfoResponse.
#[export] Instance Boxed_createSessionCookieRequest : Boxed createSessionCookieRequest :=
  i_createSessionCookieRequest.
#[export] Instance Boxed_createSessionCookieResponse : Boxed createSessionCookieResponse :=
  i_createSessionCookieResponse.

(** The comma-ok type assertions [v.(T)]: the zero value of [T] and [false]
    when the dynamic type of [v] is not [T] (in particular when [v] is nil). *)
Definition assert_int64 (v : iface) : Z * bool :=
  match v with i_int64 n => (n, true) | _ => (0, false) end.

Definition assert_string (v : iface) : string * bool :=
  match v with i_string s => (s, true) | _ => ("", false) end.

Definition assert_bool (v : iface) : bool * bool :=
  match v with i_bool b => (b, true) | _ => (false, false) end.

(** The single-value type assertion [v.(T)] panics on a mismatch. *)
Definition must {A} (r : A * bool) : outcome A :=
  if r.2 then Returns r.1 else Panics.

(** ** token.go *)

Definition claims_map : Type := option (gmap string iface).

Record Token : Type := {
  Issuer : string;
  Audience : string;
  Expires : Z;
  IssuedAt : Z;
  Subject : string;
  UID : string;
  Claims : claims_map
}.

(** [m[k]] on a Go map: the zero value (the nil interface) for a missing key,
    also on the nil map. *)
Definition index (m : claims_map) (k : string) : iface :=
  match m with
  | None => i_nil
  | Some g => default i_nil (g !! k)
  end.

(** Presence of a key, [_, ok := m[k]]. *)
Definition entry (m : claims_map) (k : string) : option iface :=
  match m with
  | None => None
  | Some g => g !! k
  end.

(** The accessors (unnamed/part_002, lines 18-57) use the comma-ok assertion
    and fall back to the zero value; they are written with the same result
    type as the single-value accessors of the earlier revision, which can
    panic.  [Email_] is the method [Email]; the plain name is the field of
    [getAccountInfoRequest]. *)
Definition AuthTime (t : Token) : outcome Z :=
  let '(res, ok) := assert_int64 (index (Claims t) "auth_time") in
  if ok then Returns res else Returns 0.

Definition Name (t : Token) : outcome string :=
  let '(res, ok) := assert_string (index (Claims t) "name") in
  if ok then Returns res else Returns "".

Definition Picture (t : Token) : outcome string :=
  let '(res, ok) := assert_string (index (Claims t) "picture") in
  if ok then Returns res else Returns "".

Definition Email_ (t : Token) : outcome string :=
  let '(res, ok) := assert_string (index (Claims t) "email") in
  if ok then Returns res else Returns "".

Definition IsEmailVerified (t : Token) : outcome bool :=
  let '(res, ok) := assert_bool (index (Claims t) "email_verified") in
  if ok then Returns res else Returns false.

Definition GetClaims (t : Token) : claims_map := Claims t.

Definition with_Claims (t : Token) (c : claims_map) : Token :=
  {| Issuer := Issuer t; Audience := Audience t; Expires := Expires t;
     IssuedAt := IssuedAt t; Subject := Subject t; UID := UID t;
     Claims := c |}.

(** [for key, val := range claims { dst[key] = val }]; ranging over the nil
    map runs no iteration. *)
Definition range_assign (dst : gmap string iface) (claims : claims_map)
  : gmap string iface :=
  match claims with
  | None => dst
  | Some src => map_fold (fun key val acc => <[key:=val]> acc) dst src
  end.

(** [SetClaims] (token.go, lines 49-57; the same in unnamed/part_002).  On a
    token without claims the assignment [t.Claims = claims] makes the token
    hold the caller's map; the model keeps the contents the map has at the
    call. *)
Definition SetClaims (claims : claims_map) (t : Token) : Token :=
  match Claims t with
  | None => with_Claims t claims
  | Some dst => with_Claims t (Some (range_assign dst claims))
  end.

(** The methods of [*Token], and what a call returns. *)
Inductive method_call : Type :=
| call_AuthTime
| call_Name
| call_Picture
| call_Email
| call_IsEmailVerified
| call_GetClaims
| call_SetClaims (claims : claims_map).

Inductive method_value : Type :=
| ret_int64 (n : Z)
| ret_string (s : string)
| ret_bool (b : bool)
| ret_Claims (c : claims_map)
| ret_unit.

Definition outcome_map {A B} (f : A -> B) (o : outcome A) : outcome B :=
  match o with
  | Returns a => Returns (f a)
  | Panics => Panics
  end.

(** A method call on a token: the token afterwards and what the call
    returned. *)
Definition invoke (c : method_call) (t : Token) : Token * outcome method_value :=
  match c with
  | call_AuthTime => (t, outcome_map ret_int64 (AuthTime t))
  | call_Name => (t, outcome_map ret_string (Name t))
  | call_Picture => (t, outcome_map ret_string (Picture t))
  | call_Email => (t, outcome_map ret_string (Email_ t))
  | call_IsEmailVerified => (t, outcome_map ret_bool (IsEmailVerified t))
  | call_GetClaims => (t, Returns (ret_Claims (GetClaims t)))
  | call_SetClaims claims => (SetClaims claims t, Returns ret_unit)
  end.

(** ** Collaborators, traces and the result monad *)

(** Modelled from the spec: the Token Verifier is built by
    [newIDTokenVerifier(ctx, projectID)], which is not among the source files;
    a verifier is known by the project it was built for. *)
Record tokenVerifier : Type := {
  tv_projectID : string
}.

(** An [oauth2.TokenSource] and an [http.RoundTripper], known by a handle. *)
Variant TokenSource : Type := token_source (id : nat).
Variant RoundTripper : Type := round_tripper (id : nat).

(** Modelled from the spec: [App], its [Options] and the service-account
    credential are declared outside the source files; the records hold the
    fields auth.go reads. *)
Record GoogleServiceAccountCredential : Type := {
  ProjectID : string;
  ClientEmail : string;
  PrivateKey : string
}.

Record Options : Type := {
  ServiceAccountCredential : option GoogleServiceAccountCredential
}.

Record App : Type := {
  name : string;
  options : Options
}.

Record Auth : Type := {
  app : App;
  ts : option TokenSource
}.

Record requestHandler : Type := {
  h_ts : option TokenSource
}.

(** The fields of a decoded response body that the response types of the
    package read. *)
Record wire_response : Type := {
  wire_sessionCookie : string;
  wire_users : list UserRecord
}.

(** A response type: boxed for the validator, and filled from the body by
    the JSON decoder. *)
Class Response (R : Type) : Type := {
  Response_boxed :: Boxed R;
  decode : wire_response -> R -> R
}.

#[export] Instance Response_createSessionCookie : Response createSessionCookieResponse := {
  decode w _ := {| SessionCookie := wire_sessionCookie w |}
}.

#[export] Instance Response_getAccountInfo : Response getAccountInfoResponse := {
  decode w _ := {| Users := wire_users w |}
}.

(** What leaves the modelled files, in the order it happens. *)
Inductive Event : Type :=
| ev_ensureServiceAccount
| ev_ensureTokenSource
| ev_newIDTokenVerifier (projectID : string)
| ev_VerifyToken (projectID tokenString : string)
| ev_getAccountByUID (uid : string)
| ev_call (endpoint : string) (req : iface)
| ev_roundTrip (method endpoint : string) (req : iface).

Definition Trace : Type := list Event.

(** The events that hand an operation to the dispatcher or to the network. *)
Definition is_dispatch (ev : Event) : bool :=
  match ev with
  | ev_call _ _ | ev_roundTrip _ _ _ => true
  | _ => false
  end.

Definition dispatches (tr : Trace) : list Event := List.filter is_dispatch tr.

(** The collaborators.  Each answer may depend on everything that happened
    before (the trace), which covers caches, clocks that advance with the
    calls, and a backend whose records change.  [T] is the Token type the
    verifier produces. *)
Record Env (T : Type) : Type := {
  ensureServiceAccount_ : Trace -> Options -> result GoogleServiceAccountCredential;
  ensureTokenSource_ : Trace -> Auth -> result TokenSource;
  newIDTokenVerifier_ : Trace -> string -> result tokenVerifier;
  VerifyToken_ : Trace -> tokenVerifier -> string -> result T;
  getAccountByUID_ : Trace -> requestHandler -> string -> result UserRecord;
  roundTrip_ : Trace -> requestHandler -> string -> string -> iface -> result wire_response
}.
Arguments ensureServiceAccount_ {T} _ _ _.
Arguments ensureTokenSource_ {T} _ _ _.
Arguments newIDTokenVerifier_ {T} _ _ _.
Arguments VerifyToken_ {T} _ _ _ _.
Arguments getAccountByUID_ {T} _ _ _ _.
Arguments roundTrip_ {T} _ _ _ _ _ _.

(** A Go function returning [(A, error)] that talks to collaborators. *)
Definition IO (A : Type) : Type := Trace -> result A * Trace.

#[export] Instance IO_ret : MRet IO := fun A a tr => (Ok a, tr).

#[export] Instance IO_bind : MBind IO := fun A B k m tr =>
  match m tr with
  | (Ok a, tr') => k a tr'
  | (Err e, tr') => (Err e, tr')
  end.

(** [return nil, err] *)
Definition throw {A} (e : error) : IO A := fun tr => (Err e, tr).

(** A call to a collaborator: it answers from the trace so far, and the call
    is appended to the trace. *)
Definition ask {A} (ev : Event) (answer : Trace -> result A) : IO A :=
  fun tr => (answer tr, tr ++ [ev]).

(** [if err := m; err != nil { return nil, errors.Wrap(err, msg) }] *)
Definition wrapping {A} (msg : string) (m : IO A) : IO A := fun tr =>
  match m tr with
  | (Ok a, tr') => (Ok a, tr')
  | (Err e, tr') => (Err (errors_Wrap e msg), tr')
  end.

(** ** The request dispatcher *)

Record apiSettings : Type := {
  method : string;
  endpoint : string;
  reqFn : iface -> option error;
  respFn : iface -> option error
}.

(** The failure of the transport, kept apart from the validators' errors. *)
Definition TransportFailure (cause : error) : error :=
  errors_Wrap cause "transport failure".

Section Dispatcher.

Context {T : Type} (env : Env T).

(** Modelled from the spec: [h.call(api, req, resp)] is not among the source
    files.  Section 4.4: the request validator runs before sending and a
    failure of it aborts the call without a network round trip; the response
    is received and decoded, then the response validator runs; a validator
    failure is returned verbatim, a transport failure is wrapped. *)
Definition call {Req Resp} `{Boxed Req} `{Response Resp}
    (h : requestHandler) (api : apiSettings) (req : Req) (resp : Resp) : IO Resp :=
  fun tr =>
    let tr1 := tr ++ [ev_call (endpoint api) (box req)] in
    match reqFn api (box req) with
    | Some err => (Err err, tr1)
    | None =>
        let tr2 := tr1 ++ [ev_roundTrip (method api) (endpoint api) (box req)] in
        match roundTrip_ env tr1 h (method api) (endpoint api) (box req) with
        | Err e => (Err (TransportFailure e), tr2)
        | Ok w =>
            let resp' := decode w resp in
            match respFn api (box resp') with
            | Some err => (Err err, tr2)
            | None => (Ok resp', tr2)
            end
        end
    end.

Definition getAccountByUID (h : requestHandler) (uid : string) : IO UserRecord :=
  ask (ev_getAccountByUID uid) (fun tr => getAccountByUID_ env tr h uid).

Definition newIDTokenVerifier (projectID : string) : IO tokenVerifier :=
  ask (ev_newIDTokenVerifier projectID)
      (fun tr => newIDTokenVerifier_ env tr projectID).

Definition VerifyToken (verifier : tokenVerifier) (tokenString : string) : IO T :=
  ask (ev_VerifyToken (tv_projectID verifier) tokenString)
      (fun tr => VerifyToken_ env tr verifier tokenString).

Definition ensureServiceAccount (o : Options) : IO GoogleServiceAccountCredential :=
  ask ev_ensureServiceAccount (fun tr => ensureServiceAccount_ env tr o).

Definition ensureTokenSource (auth : Auth) : IO TokenSource :=
  ask ev_ensureTokenSource (fun tr => ensureTokenSource_ env tr auth).

End Dispatcher.

(** ** session_api_request.go

    The later revision of the file (lines 137-241). *)

(** Lines 144-163. *)
Definition createSessionCookieAPI : apiSettings := {|
  method := "POST";
  endpoint := "createSessionCookie";
  reqFn := fun src =>
    match src with
    | i_getAccountInfoRequest r =>
        let s1 := length (LocalID r) in
        let s2 := length (Email r) in
        if ((s1 =? 0) && (s2 =? 0))%nat then Some errMissingRequestTarget
        else None
    | _ => Some errIllegalType
    end;
  respFn := fun src =>
    match src with
    | i_getAccountInfoResponse _ => None
    | _ => Some errIllegalType
    end
|}.

(** [errors.New("Token has been revoked")] *)
Definition errRevoked : error := errors_New "Token has been revoked".

Section SessionCookies.

Context (env : Env Token).

(** Lines 174-184. *)
Definition createSessionCookie (h : requestHandler) (idToken : string) (duration : Z)
  : IO string :=
  let req := {| IDToken := idToken; Duration := duration |} in
  let resp := {| SessionCookie := "" |} in
  resp' ← call env h createSessionCookieAPI req resp;
  mret (SessionCookie resp').

(** Lines 208-215. *)
Definition verifySessionCookie (h : requestHandler) (projectID cookie : string)
  : IO Token :=
  verifier ← newIDTokenVerifier env projectID;
  VerifyToken env verifier cookie.

(** Lines 229-241. *)
Definition checkRevoked (h : requestHandler) (token : Token) : IO bool :=
  let uid := UID token in
  user ← getAccountByUID env h uid;
  let iat := IssuedAt token in
  mret (int64_wrap (iat * 1000) <? TokensValidAfterMillis user).

(** Lines 186-206. *)
Definition verifySessionCookieAndCheckRevoked
    (h : requestHandler) (projectID cookie : string) : IO UserRecord :=
  token ← verifySessionCookie h projectID cookie;
  valid ← checkRevoked h token;
  if negb valid then throw errRevoked
  else
    let uid := UID token in
    getAccountByUID env h uid.

(** Lines 217-227. *)
Definition checkSessionCookieRevoked
    (h : requestHandler) (projectID cookie : string) : IO bool :=
  token ← verifySessionCookie h projectID cookie;
  checkRevoked h token.

End SessionCookies.

(** ** auth.go *)

(** [time.Duration] counts nanoseconds in an [int64]. *)
Definition time_Second : Z := 1000000000.
Definition time_Minute : Z := 60 * time_Second.
Definition time_Hour : Z := 60 * time_Minute.

(** [func (d Duration) Seconds() float64] of package time:
    [sec := d / Second; nsec := d % Second;
     return float64(sec) + float64(nsec)/1e9]. *)
Definition Duration_Seconds (d : Z) : float64 :=
  let sec := Z.quot d time_Second in
  let nsec := Z.rem d time_Second in
  f64_add (float64_of_int sec)
          (f64_div (float64_of_int nsec) (float64_of_int 1000000000)).

(** The registry [authInstances]: the map from application names to Auth
    pointers, and the Auth values those pointers address.  A pointer is an
    index into [auth_store]; [&Auth{...}] allocates the next index. *)
Record authInstances_state : Type := {
  authInstances_m : gmap string nat;
  auth_store : list Auth
}.

(** [GetAuthWithApp] (auth.go, lines 43-51).  The call runs between
    [authInstances.Lock()] and the deferred [Unlock()], so it is one atomic
    step on the registry.  It returns the pointer found under the name
    ([None] is the nil pointer of a missing key) and the error. *)
Definition GetAuthWithApp (a : App) (st : authInstances_state)
  : (option nat * option error) * authInstances_state :=
  let appName := name a in
  let st' :=
    match authInstances_m st !! appName with
    | Some _ => st
    | None =>
        {| authInstances_m := <[appName := length (auth_store st)]> (authInstances_m st);
           auth_store := auth_store st ++ [ {| app := a; ts := None |} ] |}
    end in
  ((authInstances_m st' !! appName, None), st').

Section AuthFacade.

Context (env : Env Token).

(** auth.go, lines 88-99; [transport] is not used by the body. *)
Definition VerifyIDTokenWithTransport
    (a : Auth) (tokenString : string) (transport : option RoundTripper) : IO Token :=
  cred ← ensureServiceAccount env (options (app a));
  let projectID := ProjectID cred in
  verifier ← newIDTokenVerifier env projectID;
  VerifyToken env verifier tokenString.

Definition VerifyIDToken (a : Auth) (tokenString : string) : IO Token :=
  VerifyIDTokenWithTransport a tokenString None.

(** auth.go, lines 158-176; [duration] is [None] for the nil pointer. *)
Definition CreateSessionCookie
    (auth : Auth) (idToken : string) (duration : option Z) : IO string :=
  ts' ← wrapping "Error ensuring token source" (ensureTokenSource env auth);
  let handler := {| h_ts := Some ts' |} in
  _ ← VerifyIDToken auth idToken;
  let expiry := int64_of_float64 (Duration_Seconds (time_Hour * 24 * 5)) in
  let expiry :=
    match duration with
    | Some d => int64_of_float64 (Duration_Seconds d)
    | None => expiry
    end in
  createSessionCookie env handler idToken expiry.

End AuthFacade.

(** ** The earlier revision of the files

    token.go and session_api_request.go are present in two revisions.  The
    definitions above follow the later one, which is the one auth.go and the
    tests compile against ([Token.UID] is a field).  This module holds what
    the earlier revision did differently. *)
Module Earlier.

(** The accessors with single-value type assertions (token.go, lines
    18-42). *)
Definition AuthTime (t : Token) : outcome Z :=
  must (assert_int64 (index (Claims t) "auth_time")).

Definition Name (t : Token) : outcome string :=
  must (assert_string (index (Claims t) "name")).

Definition Picture (t : Token) : outcome string :=
  must (assert_string (index (Claims t) "picture")).

Definition Email_ (t : Token) : outcome string :=
  must (assert_string (index (Claims t) "email")).

Definition IsEmailVerified (t : Token) : outcome bool :=
  must (assert_bool (index (Claims t) "email_verified")).

(** session_api_request.go, lines 9-28: the response validator also
    rejected an empty user list. *)
Definition createSessionCookieAPI : apiSettings := {|
  method := "POST";
  endpoint := "createSessionCookie";
  reqFn := fun src =>
    match src with
    | i_getAccountInfoRequest r =>
        let s1 := length (LocalID r) in
        let s2 := length (Email r) in
        if ((s1 =? 0) && (s2 =? 0))%nat then Some errMissingRequestTarget
        else None
    | _ => Some errIllegalType
    end;
  respFn := fun src =>
    match src with
    | i_getAccountInfoResponse r =>
        if (length (Users r) =? 0)%nat then Some AuthErrUserNotFound else None
    | _ => Some errIllegalType
    end
|}.

(** [errors.New("User id could not be retrieved from token")] *)
Definition errMissingUID : error :=
  errors_New "User id could not be retrieved from token".

(** [errors.New("Unable to get issued at timestamp from token")] *)
Definition errMissingIssuedAt : error :=
  errors_New "Unable to get issued at timestamp from token".

(** [errors.New("Unable to extract user id from token")] *)
Definition errUIDExtractionFailed : error :=
  errors_New "Unable to extract user id from token".

Section SessionCookies.

(** The Token of that revision had accessor methods [UID()] and
    [IssuedAt()] with a comma-ok result; its declaration is not among the
    source files, so the type and the two methods are parameters, as is
    [time.Time] with its method [Second()], the second within the
    minute. *)
Context {Token0 Time : Type}.
Context (Token_UID : Token0 -> string * bool).
Context (Token_IssuedAt : Token0 -> Time * bool).
Context (Time_Second : Time -> Z).
Context (env : Env Token0).

(** Lines 97-104. *)
Definition verifySessionCookie (h : requestHandler) (projectID cookie : string)
  : IO Token0 :=
  verifier ← newIDTokenVerifier env projectID;
  VerifyToken env verifier cookie.

(** Lines 118-136. *)
Definition checkRevoked (h : requestHandler) (token : Token0) : IO bool :=
  let '(uid, ok) := Token_UID token in
  if negb ok then throw errMissingUID
  else
    user ← getAccountByUID env h uid;
    let '(iat, ok) := Token_IssuedAt token in
    if negb ok then throw errMissingIssuedAt
    else mret (int64_wrap (Time_Second iat * 1000) <? TokensValidAfterMillis user).

(** Lines 72-95. *)
Definition verifySessionCookieAndCheckRevoked
    (h : requestHandler) (projectID cookie : string) : IO UserRecord :=
  token ← verifySessionCookie h projectID cookie;
  valid ← checkRevoked h token;
  if negb valid then throw errRevoked
  else
    let '(uid, ok) := Token_UID token in
    if negb ok then throw errUIDExtractionFailed
    else getAccountByUID env h uid.

End SessionCookies.

End Earlier.

(** ** Registry runs and concrete scenarios *)

(** A sequence of [GetAuthWithApp] calls, one after the other. *)
Fixpoint requests (apps : list App) (st : authInstances_state) : authInstances_state :=
  match apps with
  | [] => st
  | a :: rest => requests rest (GetAuthWithApp a st).2
  end.

(** Every registered name addresses an Auth in the store that was created
    for an App of that name. *)
Definition registry_wf (st : authInstances_state) : Prop :=
  ∀ (n : string) (p : nat),
    authInstances_m st !! n = Some p →
    ∃ au, auth_store st !! p = Some au ∧ name (app au) = n.

Definition authInstances_init : authInstances_state :=
  {| authInstances_m := ∅; auth_store := [] |}.

Definition app_named (n : string) : App :=
  {| name := n; options := {| ServiceAccountCredential := None |} |}.

Definition token_for (uid : string) (iat : Z) (c : claims_map) : Token :=
  {| Issuer := "https://securetoken.google.com/demo"; Audience := "demo";
     Expires := iat + 3600; IssuedAt := iat; Subject := uid; UID := uid;
     Claims := c |}.

Definition user_with (uid : string) (validAfter : Z) : UserRecord :=
  {| ur_UID := uid; ur_Email := "user@example.com";
     TokensValidAfterMillis := validAfter |}.

(** Collaborators that give the same answers whatever happened before. *)
Definition env_fixed {T}
    (cred : result GoogleServiceAccountCredential) (src : result TokenSource)
    (tok : result T) (user : result UserRecord) (resp : result wire_response) : Env T :=
  {| ensureServiceAccount_ := fun _ _ => cred;
     ensureTokenSource_ := fun _ _ => src;
     newIDTokenVerifier_ := fun _ projectID => Ok {| tv_projectID := projectID |};
     VerifyToken_ := fun _ _ _ => tok;
     getAccountByUID_ := fun _ _ _ => user;
     roundTrip_ := fun _ _ _ _ _ => resp |}.

Definition demo_credential : GoogleServiceAccountCredential :=
  {| ProjectID := "demo"; ClientEmail := "sa@demo.example.com"; PrivateKey := "" |}.

Definition demo_auth : Auth := {| app := app_named "[DEFAULT]"; ts := None |}.

Definition demo_handler : requestHandler := {| h_ts := Some (token_source 0) |}.

Definition demo_response : wire_response :=
  {| wire_sessionCookie := "cookie"; wire_users := [] |}.

(** Everything succeeds: the verifier yields [tok], the account lookup
    [user]. *)
Definition env_ok (tok : Token) (user : UserRecord) : Env Token :=
  env_fixed (Ok demo_credential) (Ok (token_source 0)) (Ok tok) (Ok user)
            (Ok demo_response).

(** A token issued at second 100 for user alice. *)
Definition alice_token : Token := token_for "alice" 100 (Some ∅).

(** A token whose issued-at is so large that a thousand times it leaves
    [int64]. *)
Definition far_token : Token := token_for "alice" 9223372036854776 (Some ∅).

(** A token without user-id, and a backend that knows no such account. *)
Definition anonymous_token : Token := token_for "" 100 (Some ∅).

Definition env_unknown_user : Env Token :=
  env_fixed (Ok demo_credential) (Ok (token_source 0)) (Ok anonymous_token)
            (Err AuthErrUserNotFound) (Ok demo_response).

(** No bearer-token source can be built, and the verifier rejects every
    token. *)
Definition errNoTokenSource : error := errors_New "no credentials for a token source".
Definition errMalformedToken : error := errors_New "malformed token".

Definition env_no_token_source : Env Token :=
  env_fixed (Ok demo_credential) (Err errNoTokenSource) (Err errMalformedToken)
            (Ok (user_with "alice" 0)) (Ok demo_response).

(** The bearer-token source is there, and the verifier rejects every token. *)
Definition env_rejecting : Env Token :=
  env_fixed (Ok demo_credential) (Ok (token_source 0)) (Err errMalformedToken)
            (Ok (user_with "alice" 0)) (Ok demo_response).


(** ** auth.go: the operations on users and on session cookies *)

(** A read of program state that is no call to a collaborator. *)
Definition peek {A} (f : Trace -> A) : IO A := fun tr => (Ok (f tr), tr).

Section AuthSessions.

Context (env : Env Token).

(** [auth.app.options.ServiceAccountCredential.ProjectID].  The options are
    filled by code outside the source files (the service account can be
    loaded on demand), so the project id the read finds is a parameter of the
    history so far; the runs modelled are those in which the credential is
    there. *)
Context (ProjectID_at : Trace -> Auth -> string).

(** auth.go, lines 101-109. *)
Definition GetUser (auth : Auth) (uid : string) : IO UserRecord :=
  ts' ← wrapping "Error ensuring token source" (ensureTokenSource env auth);
  let handler := {| h_ts := Some ts' |} in
  getAccountByUID env handler uid.

(** auth.go, lines 178-188. *)
Definition VerifySessionCookieAndCheckRevoked (auth : Auth) (cookie : string)
  : IO UserRecord :=
  ts' ← wrapping "Error ensuring token source" (ensureTokenSource env auth);
  projectID ← peek (fun tr => ProjectID_at tr auth);
  let handler := {| h_ts := Some ts' |} in
  verifySessionCookieAndCheckRevoked env handler projectID cookie.

(** auth.go, lines 190-200. *)
Definition CheckRevoked (auth : Auth) (cookie : string) : IO bool :=
  ts' ← wrapping "Error ensuring token source" (ensureTokenSource env auth);
  projectID ← peek (fun tr => ProjectID_at tr auth);
  let handler := {| h_ts := Some ts' |} in
  checkSessionCookieRevoked env handler projectID cookie.

(** auth.go, lines 202-219. *)
Definition VerifySessionCookie (auth : Auth) (cookie : string) : IO UserRecord :=
  ts' ← wrapping "Error ensuring token source" (ensureTokenSource env auth);
  projectID ← peek (fun tr => ProjectID_at tr auth);
  let handler := {| h_ts := Some ts' |} in
  token ← verifySessionCookie env handler projectID cookie;
  let uid := UID token in
  GetUser auth uid.

End AuthSessions.

(** *** The account operations

    [getAccountByEmail], [createNewAccount], [deleteAccount] and
    [updateExistingAccount] of the request handler, the type
    [UserProperties] with its method [SetValidSince], and the clock are
    outside the source files.  They are collaborators of their own, with a
    log of their own beside the trace; [UP] is the type of the user
    properties, [Time] the one of [time.Time]. *)

Inductive AccountEvent (UP : Type) : Type :=
| ev_getAccountByEmail (email : string)
| ev_createNewAccount (properties : UP)
| ev_deleteAccount (uid : string)
| ev_updateExistingAccount (uid : string) (properties : UP)
| ev_time_Now.
Arguments ev_getAccountByEmail {UP} email.
Arguments ev_createNewAccount {UP} properties.
Arguments ev_deleteAccount {UP} uid.
Arguments ev_updateExistingAccount {UP} uid properties.
Arguments ev_time_Now {UP}.

(** The trace of the collaborators of [Env] and the log of the account
    operations. *)
Definition World (UP : Type) : Type := Trace * list (AccountEvent UP).

Record AccountEnv (UP Time : Type) : Type := {
  getAccountByEmail_ : World UP -> requestHandler -> string -> result UserRecord;
  createNewAccount_ : World UP -> requestHandler -> UP -> result string;
  deleteAccount_ : World UP -> requestHandler -> string -> result unit;
  updateExistingAccount_ : World UP -> requestHandler -> string -> UP -> result string;
  time_Now_ : World UP -> Time;
  (** [UserProperties{}] *)
  UserProperties_zero : UP;
  (** [properties.SetValidSince(t)] *)
  SetValidSince_ : UP -> Time -> UP
}.
Arguments getAccountByEmail_ {UP Time} _ _ _ _.
Arguments createNewAccount_ {UP Time} _ _ _ _.
Arguments deleteAccount_ {UP Time} _ _ _ _.
Arguments updateExistingAccount_ {UP Time} _ _ _ _ _.
Arguments time_Now_ {UP Time} _ _.
Arguments UserProperties_zero {UP Time} _.
Arguments SetValidSince_ {UP Time} _ _ _.

(** A Go function returning [(A, error)] that also runs account
    operations; a bare [error] result is a [result unit]. *)
Definition AIO (UP : Type) (A : Type) : Type := World UP -> result A * World UP.

#[export] Instance AIO_ret {UP} : MRet (AIO UP) := fun A a w => (Ok a, w).

#[export] Instance AIO_bind {UP} : MBind (AIO UP) := fun A B k m w =>
  match m w with
  | (Ok a, w') => k a w'
  | (Err e, w') => (Err e, w')
  end.

Definition athrow {UP A} (e : error) : AIO UP A := fun w => (Err e, w).

(** A function of the trace alone, run in a world: the log is untouched. *)
Definition on_trace {UP A} (m : IO A) : AIO UP A := fun w =>
  let '(r, tr') := m w.1 in (r, (tr', w.2)).

(** A call of an account operation: it answers from the world so far and is
    appended to the log. *)
Definition account_ask {UP A} (ev : AccountEvent UP) (answer : World UP -> result A)
  : AIO UP A :=
  fun w => (answer w, (w.1, w.2 ++ [ev])).

(** [errors.New("User id match failed")] *)
Definition errUserIDMismatch : error := errors_New "User id match failed".

Section AccountOperations.

Context {UP Time : Type}.
Context (env : Env Token) (acc : AccountEnv UP Time).

Definition getAccountByEmail (h : requestHandler) (email : string) : AIO UP UserRecord :=
  account_ask (ev_getAccountByEmail email)
              (fun w => getAccountByEmail_ acc w h email).

Definition createNewAccount (h : requestHandler) (properties : UP) : AIO UP string :=
  account_ask (ev_createNewAccount properties)
              (fun w => createNewAccount_ acc w h properties).

Definition deleteAccount (h : requestHandler) (uid : string) : AIO UP unit :=
  account_ask (ev_deleteAccount uid) (fun w => deleteAccount_ acc w h uid).

Definition updateExistingAccount (h : requestHandler) (uid : string) (properties : UP)
  : AIO UP string :=
  account_ask (ev_updateExistingAccount uid properties)
              (fun w => updateExistingAccount_ acc w h uid properties).

Definition time_Now : AIO UP Time :=
  account_ask ev_time_Now (fun w => Ok (time_Now_ acc w)).

(** [if err := auth.ensureTokenSource(); err != nil
     { return errors.Wrap(err, "Error ensuring token source") }] *)
Definition with_token_source (auth : Auth) : AIO UP TokenSource :=
  on_trace (wrapping "Error ensuring token source" (ensureTokenSource env auth)).

(** auth.go, lines 111-119. *)
Definition GetUserByEmail (auth : Auth) (email : string) : AIO UP UserRecord :=
  ts' ← with_token_source auth;
  let handler := {| h_ts := Some ts' |} in
  getAccountByEmail handler email.

(** auth.go, lines 121-132. *)
Definition CreateUser (auth : Auth) (properties : UP) : AIO UP UserRecord :=
  ts' ← with_token_source auth;
  let handler := {| h_ts := Some ts' |} in
  uid ← createNewAccount handler properties;
  on_trace (getAccountByUID env handler uid).

(** auth.go, lines 134-142. *)
Definition DeleteUser (auth : Auth) (uid : string) : AIO UP unit :=
  ts' ← with_token_source auth;
  let handler := {| h_ts := Some ts' |} in
  deleteAccount handler uid.

(** auth.go, lines 144-155; the result of [updateExistingAccount] is
    assigned to [uid]. *)
Definition UpdateUser (auth : Auth) (uid : string) (properties : UP)
  : AIO UP UserRecord :=
  ts' ← with_token_source auth;
  let handler := {| h_ts := Some ts' |} in
  uid ← updateExistingAccount handler uid properties;
  on_trace (getAccountByUID env handler uid).

(** auth.go, lines 221-243. *)
Definition RevokeRefreshTokens (auth : Auth) (uid : string) : AIO UP unit :=
  _ ← with_token_source auth;
  user ← on_trace (GetUser env auth uid);
  if negb (String.eqb (ur_UID user) uid) then athrow errUserIDMismatch
  else
    now ← time_Now;
    let properties := SetValidSince_ acc (UserProperties_zero acc) now in
    _ ← UpdateUser auth uid properties;
    mret tt.

End AccountOperations.

(** The account operations a log holds that change the backend. *)
Definition is_update {UP} (ev : AccountEvent UP) : bool :=
  match ev with
  | ev_updateExistingAccount _ _ => true
  | _ => false
  end.

(** ** More concrete scenarios *)

(** A token of the earlier revision, known by what its two accessor methods
    return; a time is its Unix seconds, and [Second()] the second within the
    minute. *)
Definition Token0 : Type := (string * bool) * (Z * bool).
Definition Token0_UID (t : Token0) : string * bool := t.1.
Definition Token0_IssuedAt (t : Token0) : Z * bool := t.2.
Definition unix_Second (t : Z) : Z := t mod 60.

Definition env0_fixed (tok : result Token0) (user : result UserRecord) : Env Token0 :=
  env_fixed (Ok demo_credential) (Ok (token_source 0)) tok user (Ok demo_response).

(** User properties as a list of named numbers, times as Unix seconds, and
    account operations that all succeed. *)
Definition acc_ok : AccountEnv (list (string * Z)) Z :=
  {| getAccountByEmail_ := fun _ _ _ => Ok (user_with "alice" 0);
     createNewAccount_ := fun _ _ _ => Ok "alice";
     deleteAccount_ := fun _ _ _ => Ok tt;
     updateExistingAccount_ := fun _ _ uid _ => Ok uid;
     time_Now_ := fun _ => 1700000000;
     UserProperties_zero := [];
     SetValidSince_ := fun p t => ("validSince", t) :: p |}.


(** * Properties *)

Ltac run_io :=
  unfold mbind, IO_bind, mret, IO_ret, ask, throw, wrapping; cbn.

(** ** The Token model *)

Section TokenProperties.

Implicit Types (t : Token) (m : claims_map) (k : string) (v : iface).

Lemma range_assign_union (dst src : gmap string iface) :
  range_assign dst (Some src) = src ∪ dst.
Proof.
  unfold range_assign.
  apply (map_fold_weak_ind (fun r s => r = s ∪ dst)).
  - by rewrite (left_id_L ∅ (∪)).
  - intros i x s r _ ->. by rewrite insert_union_l.
Qed.

Lemma entry_SetClaims t m k :
  entry (Claims (SetClaims m t)) k =
  match entry m k with
  | Some v => Some v
  | None => entry (Claims t) k
  end.
Proof.
  unfold SetClaims. destruct (Claims t) as [dst|] eqn:Ht.
  - destruct m as [src|]; [|done].
    rewrite range_assign_union. cbn. rewrite lookup_union.
    destruct (src !! k), (dst !! k); done.
  - cbn. by destruct (entry m k).
Qed.

Lemma SetClaims_frame t m :
  Issuer (SetClaims m t) = Issuer t ∧
  Audience (SetClaims m t) = Audience t ∧
  Expires (SetClaims m t) = Expires t ∧
  IssuedAt (SetClaims m t) = IssuedAt t ∧
  Subject (SetClaims m t) = Subject t ∧
  UID (SetClaims m t) = UID t.
Proof. unfold SetClaims. by destruct (Claims t). Qed.

Lemma invoke_reads_only t (c : method_call) :
  (∀ m, c ≠ call_SetClaims m) → (invoke c t).1 = t.
Proof. intros Hc. destruct c; try done. by destruct (Hc claims). Qed.

(** C6. [SetClaims] merges [m] into the token's claims: every key of [m]
    maps to [m]'s value afterwards, every other key keeps its entry (or
    stays absent), the six standard fields are unchanged, a nil [Claims]
    becomes [m], and no other method of the token changes it. *)
Theorem SetClaims_merge t m :
  (∀ k v, entry m k = Some v → entry (Claims (SetClaims m t)) k = Some v) ∧
  (∀ k, entry m k = None →
        entry (Claims (SetClaims m t)) k = entry (Claims t) k) ∧
  (Issuer (SetClaims m t) = Issuer t ∧
   Audience (SetClaims m t) = Audience t ∧
   Expires (SetClaims m t) = Expires t ∧
   IssuedAt (SetClaims m t) = IssuedAt t ∧
   Subject (SetClaims m t) = Subject t ∧
   UID (SetClaims m t) = UID t) ∧
  (Claims t = None → Claims (SetClaims m t) = m) ∧
  (∀ c : method_call, (∀ m', c ≠ call_SetClaims m') → (invoke c t).1 = t).
Proof.
  repeat split; try apply SetClaims_frame.
  - intros k v Hk. by rewrite entry_SetClaims, Hk.
  - intros k Hk. by rewrite entry_SetClaims, Hk.
  - intros Hnil. unfold SetClaims. by rewrite Hnil.
  - apply invoke_reads_only.
Qed.

(** The merge on a token that has claims already. *)
Example SetClaims_example :
  let t := token_for "alice" 100 (Some {[ "role" := i_string "user"; "team" := i_string "a" ]}) in
  let t' := SetClaims (Some {[ "role" := i_string "admin" ]}) t in
  entry (Claims t') "role" = Some (i_string "admin") ∧
  entry (Claims t') "team" = Some (i_string "a") ∧
  entry (Claims t') "other" = None.
Proof. cbn zeta. rewrite !entry_SetClaims. done. Qed.

Lemma index_entry (g : gmap string iface) k :
  index (Some g) k = default i_nil (g !! k).
Proof. done. Qed.

(** C8. On a token whose claims map is not nil, an accessor whose key is
    missing, or is bound to a value of another dynamic type, returns the
    zero value of its result type and does not panic. *)
Theorem accessors_zero_value t (g : gmap string iface) :
  Claims t = Some g →
  ((∀ n, g !! "auth_time" ≠ Some (i_int64 n)) → AuthTime t = Returns 0) ∧
  ((∀ s, g !! "name" ≠ Some (i_string s)) → Name t = Returns "") ∧
  ((∀ s, g !! "picture" ≠ Some (i_string s)) → Picture t = Returns "") ∧
  ((∀ s, g !! "email" ≠ Some (i_string s)) → Email_ t = Returns "") ∧
  ((∀ b, g !! "email_verified" ≠ Some (i_bool b)) →
     IsEmailVerified t = Returns false).
Proof.
  intros Hg.
  unfold AuthTime, Name, Picture, Email_, IsEmailVerified.
  rewrite Hg, !index_entry.
  repeat split; intros Hk.
  - destruct (g !! "auth_time") as [[]|] eqn:E; try done. by destruct (Hk n).
  - destruct (g !! "name") as [[]|] eqn:E; try done. by destruct (Hk s).
  - destruct (g !! "picture") as [[]|] eqn:E; try done. by destruct (Hk s).
  - destruct (g !! "email") as [[]|] eqn:E; try done. by destruct (Hk s).
  - destruct (g !! "email_verified") as [[]|] eqn:E; try done.
    by destruct (Hk b).
Qed.

(** The token of [TestTokenEmptyClaims]. *)
Lemma accessors_zero_value_witness :
  Claims (token_for "uid" 100 (Some ∅)) = Some ∅ ∧
  AuthTime (token_for "uid" 100 (Some ∅)) = Returns 0 ∧
  IsEmailVerified (token_for "uid" 100 (Some ∅)) = Returns false.
Proof.
  split; [reflexivity|].
  pose proof (accessors_zero_value (token_for "uid" 100 (Some ∅)) ∅ eq_refl)
    as (Hauth & _ & _ & _ & Hver).
  split; [apply Hauth | apply Hver]; intros ?; rewrite lookup_empty; discriminate.
Defined.

(** A claim of another dynamic type, as a JSON number is after decoding. *)
Example AuthTime_float :
  AuthTime (token_for "uid" 100
              (Some {[ "auth_time" := i_float64 (float64_of_int 1700000000) ]}))
  = Returns 0.
Proof. reflexivity. Qed.

(** An accessor returns the claim when it has the expected type. *)
Lemma AuthTime_present t (g : gmap string iface) n :
  Claims t = Some g → g !! "auth_time" = Some (i_int64 n) →
  AuthTime t = Returns n.
Proof. intros Hg Hk. unfold AuthTime. by rewrite Hg, index_entry, Hk. Qed.

(** The reads are safe on the nil map too. *)
Lemma accessors_nil_claims t :
  Claims t = None →
  AuthTime t = Returns 0 ∧ Name t = Returns "" ∧ Picture t = Returns "" ∧
  Email_ t = Returns "" ∧ IsEmailVerified t = Returns false.
Proof.
  intros Hnil. unfold AuthTime, Name, Picture, Email_, IsEmailVerified.
  by rewrite Hnil.
Qed.

(** The earlier revision of token.go asserted the type without the
    comma-ok form: on the token of [TestTokenEmptyClaims] every accessor
    panics. *)
Lemma Earlier_accessors_panic t (g : gmap string iface) :
  Claims t = Some g →
  (g !! "auth_time" = None → Earlier.AuthTime t = Panics) ∧
  (g !! "name" = None → Earlier.Name t = Panics) ∧
  (g !! "picture" = None → Earlier.Picture t = Panics) ∧
  (g !! "email" = None → Earlier.Email_ t = Panics) ∧
  (g !! "email_verified" = None → Earlier.IsEmailVerified t = Panics).
Proof.
  intros Hg.
  unfold Earlier.AuthTime, Earlier.Name, Earlier.Picture, Earlier.Email_,
    Earlier.IsEmailVerified.
  rewrite Hg, !index_entry.
  repeat split; intros ->; reflexivity.
Qed.

End TokenProperties.

(** ** The Auth registry *)

Section Registry.

Implicit Types (st : authInstances_state) (a : App) (apps : list App).

Lemma GetAuthWithApp_returns a st :
  ∃ p, (GetAuthWithApp a st).1 = (Some p, None) ∧
       authInstances_m (GetAuthWithApp a st).2 !! name a = Some p.
Proof.
  unfold GetAuthWithApp.
  destruct (authInstances_m st !! name a) as [p|] eqn:E; cbn.
  - exists p. by rewrite E.
  - exists (length (auth_store st)). by rewrite lookup_insert_eq.
Qed.

(** A name that is registered stays registered to the same pointer. *)
Lemma GetAuthWithApp_keeps a st (n : string) (p : nat) :
  authInstances_m st !! n = Some p →
  authInstances_m (GetAuthWithApp a st).2 !! n = Some p.
Proof.
  intros Hn. unfold GetAuthWithApp.
  destruct (authInstances_m st !! name a) as [q|] eqn:E; cbn; [done|].
  rewrite lookup_insert_ne; [done|]. intros <-. congruence.
Qed.

Lemma requests_keep apps st (n : string) (p : nat) :
  authInstances_m st !! n = Some p →
  authInstances_m (requests apps st) !! n = Some p.
Proof.
  revert st. induction apps as [|a rest IH]; intros st Hn; cbn; [done|].
  apply IH. by apply GetAuthWithApp_keeps.
Qed.

Lemma GetAuthWithApp_hit a st (p : nat) :
  authInstances_m st !! name a = Some p →
  GetAuthWithApp a st = ((Some p, None), st).
Proof. intros Hn. unfold GetAuthWithApp. rewrite Hn. cbn. by rewrite Hn. Qed.

(** The first request under a name creates the instance for the
    requesting App, at a fresh address. *)
Lemma GetAuthWithApp_creates a st :
  authInstances_m st !! name a = None →
  (GetAuthWithApp a st).1.1 = Some (length (auth_store st)) ∧
  auth_store (GetAuthWithApp a st).2 !! length (auth_store st)
    = Some {| app := a; ts := None |}.
Proof.
  intros Hn. unfold GetAuthWithApp. rewrite Hn. cbn. split.
  - by rewrite lookup_insert_eq.
  - rewrite lookup_app_r; [|done]. by rewrite Nat.sub_diag.
Qed.

Lemma registry_wf_init : registry_wf authInstances_init.
Proof. intros n p Hn. cbn in Hn. by rewrite lookup_empty in Hn. Qed.

Lemma GetAuthWithApp_wf a st :
  registry_wf st → registry_wf (GetAuthWithApp a st).2.
Proof.
  intros Hwf n p. unfold GetAuthWithApp.
  destruct (authInstances_m st !! name a) as [q|] eqn:E; cbn; [apply Hwf|].
  destruct (decide (name a = n)) as [<-|Hne].
  - rewrite lookup_insert_eq. intros [= <-].
    exists {| app := a; ts := None |}. split; [|done].
    rewrite lookup_app_r; [|done]. by rewrite Nat.sub_diag.
  - rewrite lookup_insert_ne by done. intros Hn.
    destruct (Hwf n p Hn) as (au & Hau & Hname).
    exists au. split; [|done]. by apply lookup_app_l_Some.
Qed.

Lemma requests_wf apps st : registry_wf st → registry_wf (requests apps st).
Proof.
  revert st. induction apps as [|a rest IH]; intros st Hwf; cbn; [done|].
  apply IH. by apply GetAuthWithApp_wf.
Qed.

(** The store only grows: an Auth that is there stays where it is. *)
Lemma GetAuthWithApp_store a st (p : nat) (au : Auth) :
  auth_store st !! p = Some au →
  auth_store (GetAuthWithApp a st).2 !! p = Some au.
Proof.
  intros Hp. unfold GetAuthWithApp.
  destruct (authInstances_m st !! name a); cbn; [done|].
  by apply lookup_app_l_Some.
Qed.

Lemma requests_store apps st (p : nat) (au : Auth) :
  auth_store st !! p = Some au → auth_store (requests apps st) !! p = Some au.
Proof.
  revert st. induction apps as [|a rest IH]; intros st Hp; cbn; [done|].
  apply IH. by apply GetAuthWithApp_store.
Qed.

(** A request touches no name but its own. *)
Lemma GetAuthWithApp_frame a st (n : string) :
  n ≠ name a →
  authInstances_m (GetAuthWithApp a st).2 !! n = authInstances_m st !! n.
Proof.
  intros Hne. unfold GetAuthWithApp.
  destruct (authInstances_m st !! name a); cbn; [done|].
  by rewrite lookup_insert_ne.
Qed.

(** C7. [GetAuthWithApp] is a get-or-create keyed by the application name.
    The first request returns a pointer that is not nil and a nil error, and
    leaves that pointer registered under the name; a later request under the
    same name, by whatever App and whatever requests were served in between,
    returns the same pointer and a nil error, and leaves the registry as it
    found it.  Get: a name that was registered keeps its pointer, and the
    registry is not touched.  Create: a name that was not registered gets the
    next free address, where an Auth for the requesting App is stored, and
    that Auth is still there at the later request.  No other name is
    touched.  In a registry where every registered pointer addresses an Auth
    of its name, the pointer addresses, at both requests, one and the same
    Auth, made for an App of the requested name. *)
Theorem GetAuthWithApp_idempotent st a1 a2 (between : list App) :
  name a1 = name a2 →
  let first := GetAuthWithApp a1 st in
  let before := requests between first.2 in
  let again := GetAuthWithApp a2 before in
  ∃ p : nat,
    first.1 = (Some p, None) ∧ again.1 = (Some p, None) ∧
    authInstances_m first.2 !! name a1 = Some p ∧
    authInstances_m again.2 !! name a2 = Some p ∧
    again.2 = before ∧
    (∀ q, authInstances_m st !! name a1 = Some q → p = q ∧ first.2 = st) ∧
    (authInstances_m st !! name a1 = None →
       p = length (auth_store st) ∧
       auth_store first.2 = auth_store st ++ [ {| app := a1; ts := None |} ] ∧
       auth_store again.2 !! p = Some {| app := a1; ts := None |}) ∧
    (∀ n, n ≠ name a1 → authInstances_m first.2 !! n = authInstances_m st !! n) ∧
    (registry_wf st →
       ∃ au, auth_store first.2 !! p = Some au ∧
             auth_store again.2 !! p = Some au ∧
             name (app au) = name a1).
Proof.
  intros Hname first before again.
  destruct (GetAuthWithApp_returns a1 st) as (p & Hret & Hreg).
  fold first in Hret, Hreg.
  assert (Hbefore : authInstances_m before !! name a2 = Some p).
  { rewrite <- Hname. by apply requests_keep. }
  assert (Hagain : again = ((Some p, None), before)).
  { by apply GetAuthWithApp_hit. }
  exists p. rewrite Hagain. cbn [fst snd].
  split; [exact Hret|]. split; [reflexivity|]. split; [exact Hreg|].
  split; [exact Hbefore|]. split; [reflexivity|]. split; [|split; [|split]].
  - intros q Hq. pose proof (GetAuthWithApp_hit a1 st q Hq) as Hhit.
    fold first in Hhit. rewrite Hhit in Hret. cbn in Hret.
    injection Hret as ->. by rewrite Hhit.
  - intros Hfresh.
    destruct (GetAuthWithApp_creates a1 st Hfresh) as [Hp Hstore].
    fold first in Hp, Hstore. rewrite Hret in Hp. cbn in Hp. injection Hp as ->.
    split; [done|]. split.
    + unfold first, GetAuthWithApp. by rewrite Hfresh.
    + by apply requests_store.
  - intros n Hne. by apply GetAuthWithApp_frame.
  - intros Hwf.
    destruct (GetAuthWithApp_wf a1 st Hwf (name a1) p Hreg) as (au & Hau & Hn).
    exists au. split; [done|]. split; [|done]. by apply requests_store.
Qed.

Lemma GetAuthWithApp_idempotent_witness :
  name (app_named "a")
  = name {| name := "a";
            options := {| ServiceAccountCredential := Some demo_credential |} |} ∧
  ∃ p : nat,
    (GetAuthWithApp (app_named "a") authInstances_init).1 = (Some p, None) ∧
    (GetAuthWithApp
       {| name := "a";
          options := {| ServiceAccountCredential := Some demo_credential |} |}
       (requests [app_named "b"; app_named "c"]
          (GetAuthWithApp (app_named "a") authInstances_init).2)).1
    = (Some p, None) ∧
    authInstances_m (GetAuthWithApp (app_named "a") authInstances_init).2 !! "a"
    = Some p ∧
    auth_store
      (GetAuthWithApp
         {| name := "a";
            options := {| ServiceAccountCredential := Some demo_credential |} |}
         (requests [app_named "b"; app_named "c"]
            (GetAuthWithApp (app_named "a") authInstances_init).2)).2 !! p
    = Some {| app := app_named "a"; ts := None |}.
Proof.
  split; [reflexivity|].
  destruct (GetAuthWithApp_idempotent authInstances_init (app_named "a")
              {| name := "a";
                 options := {| ServiceAccountCredential := Some demo_credential |} |}
              [app_named "b"; app_named "c"] eq_refl)
    as (p & Hfirst & Hagain & Hreg & _ & _ & _ & Hcreate & _).
  exists p. split; [exact Hfirst|]. split; [exact Hagain|]. split; [exact Hreg|].
  exact (proj2 (proj2 (Hcreate eq_refl))).
Defined.

(** One instance per application name: two names never share a pointer. *)
Lemma registry_distinct st (n1 n2 : string) (p1 p2 : nat) :
  registry_wf st →
  authInstances_m st !! n1 = Some p1 →
  authInstances_m st !! n2 = Some p2 →
  n1 ≠ n2 → p1 ≠ p2.
Proof.
  intros Hwf H1 H2 Hne ->.
  destruct (Hwf n1 p2 H1) as (au1 & Hau1 & Hn1).
  destruct (Hwf n2 p2 H2) as (au2 & Hau2 & Hn2).
  congruence.
Qed.

Example GetAuthWithApp_two_names :
  let st1 := (GetAuthWithApp (app_named "a") authInstances_init).2 in
  (GetAuthWithApp (app_named "a") authInstances_init).1 = (Some 0%nat, None) ∧
  (GetAuthWithApp (app_named "b") st1).1 = (Some 1%nat, None) ∧
  (GetAuthWithApp (app_named "a") (GetAuthWithApp (app_named "b") st1).2).1
    = (Some 0%nat, None).
Proof. vm_compute. done. Qed.

End Registry.

(** ** The session-cookie manager *)

Section SessionProperties.

Context (env : Env Token).
Implicit Types (h : requestHandler) (t : Token) (tr : Trace).

(** *** createSessionCookie *)

Lemma createSessionCookie_request_rejected (idToken : string) (duration : Z) :
  reqFn createSessionCookieAPI
        (box {| IDToken := idToken; Duration := duration |})
  = Some errIllegalType.
Proof. reflexivity. Qed.

(** The response the caller passes would not pass its validator either. *)
Lemma createSessionCookie_response_rejected (resp : createSessionCookieResponse) :
  respFn createSessionCookieAPI (box resp) = Some errIllegalType.
Proof. reflexivity. Qed.

(** C3. What the code does instead: the validator of
    [createSessionCookieAPI] accepts only a [*getAccountInfoRequest], so the
    request [createSessionCookie] builds is reported as [errIllegalType];
    every call ends with that error, after handing the request to the
    dispatcher and before any round trip. *)
Theorem createSessionCookie_IllegalType h (idToken : string) (duration : Z) tr :
  let req := i_createSessionCookieRequest
               {| IDToken := idToken; Duration := duration |} in
  reqFn createSessionCookieAPI req = Some errIllegalType ∧
  createSessionCookie env h idToken duration tr
  = (Err errIllegalType, tr ++ [ev_call "createSessionCookie" req]).
Proof. split; reflexivity. Qed.

Lemma createSessionCookie_never_succeeds h (idToken : string) (duration : Z) tr :
  is_Ok (createSessionCookie env h idToken duration tr).1 = false.
Proof. reflexivity. Qed.


(** *** checkRevoked *)

Lemma checkRevoked_run h t tr :
  checkRevoked env h t tr =
  (match getAccountByUID_ env tr h (UID t) with
   | Ok user => Ok (int64_wrap (IssuedAt t * 1000) <? TokensValidAfterMillis user)
   | Err e => Err e
   end,
   tr ++ [ev_getAccountByUID (UID t)]).
Proof.
  unfold checkRevoked, getAccountByUID. run_io.
  by destruct (getAccountByUID_ env tr h (UID t)).
Qed.

Lemma int64_wrap_id (z : Z) : in_int64 z → int64_wrap z = z.
Proof.
  unfold in_int64, int64_wrap, int64_min, int64_max. intros Hz.
  rewrite Z.mod_small; lia.
Qed.

(** C2, amended. When the account lookup succeeds and the product
    [issued-at * 1000] fits in an [int64], [checkRevoked] returns true
    exactly when the product is strictly below [tokensValidAfterMillis];
    at equality it returns false. *)
Theorem checkRevoked_iff h t tr (user : UserRecord) :
  getAccountByUID_ env tr h (UID t) = Ok user →
  in_int64 (IssuedAt t * 1000) →
  ∃ revoked : bool,
    (checkRevoked env h t tr).1 = Ok revoked ∧
    (revoked = true ↔ IssuedAt t * 1000 < TokensValidAfterMillis user) ∧
    (IssuedAt t * 1000 = TokensValidAfterMillis user → revoked = false).
Proof.
  intros Huser Hfit. rewrite checkRevoked_run, Huser. cbn.
  rewrite (int64_wrap_id _ Hfit).
  eexists. split; [reflexivity|]. split.
  - apply Z.ltb_lt.
  - intros ->. apply Z.ltb_irrefl.
Qed.

(** C5, amended. [checkRevoked] has no guard on the user-id: for every
    token, with an empty user-id or not, its one action is the account
    lookup under the token's user-id, and it fails exactly when that lookup
    fails, with the error of the lookup. *)
Theorem checkRevoked_always_fetches h t tr :
  (checkRevoked env h t tr).2 = tr ++ [ev_getAccountByUID (UID t)] ∧
  (∀ e, (checkRevoked env h t tr).1 = Err e ↔
        getAccountByUID_ env tr h (UID t) = Err e).
Proof.
  rewrite checkRevoked_run. cbn. split; [done|].
  intros e. destruct (getAccountByUID_ env tr h (UID t)); split; congruence.
Qed.

(** *** verifySessionCookieAndCheckRevoked *)

(** With the verification and the first account lookup succeeding, the
    function reports the revocation error exactly when the comparison of
    [checkRevoked] is false, and goes on to the second lookup exactly when
    it is true. *)
Lemma verifySessionCookieAndCheckRevoked_decides
    h (projectID cookie : string) tr t tr1 (user : UserRecord) :
  verifySessionCookie env h projectID cookie tr = (Ok t, tr1) →
  getAccountByUID_ env tr1 h (UID t) = Ok user →
  verifySessionCookieAndCheckRevoked env h projectID cookie tr =
  if int64_wrap (IssuedAt t * 1000) <? TokensValidAfterMillis user
  then getAccountByUID env h (UID t) (tr1 ++ [ev_getAccountByUID (UID t)])
  else (Err errRevoked, tr1 ++ [ev_getAccountByUID (UID t)]).
Proof.
  intros Hverify Huser.
  unfold verifySessionCookieAndCheckRevoked.
  unfold mbind at 1, IO_bind at 1. rewrite Hverify.
  unfold mbind, IO_bind. rewrite checkRevoked_run, Huser.
  by destruct (int64_wrap (IssuedAt t * 1000) <? TokensValidAfterMillis user).
Qed.

(** *** The two verification paths *)

(** C4, amended. [VerifyIDToken] is [ensureServiceAccount] followed by
    exactly what [verifySessionCookie] does for the credential's project:
    the same [newIDTokenVerifier], the same [VerifyToken].  For every token
    string the two paths return the same result and leave the same
    trace. *)
Theorem VerifyIDToken_is_verifySessionCookie (a : Auth) h (tokenString : string) tr :
  VerifyIDToken env a tokenString tr =
  (cred ← ensureServiceAccount env (options (app a));
   verifySessionCookie env h (ProjectID cred) tokenString) tr.
Proof. reflexivity. Qed.

Lemma VerifyIDToken_run (a : Auth) h (tokenString : string) tr :
  VerifyIDToken env a tokenString tr =
  match ensureServiceAccount_ env tr (options (app a)) with
  | Ok cred =>
      verifySessionCookie env h (ProjectID cred) tokenString
                          (tr ++ [ev_ensureServiceAccount])
  | Err e => (Err e, tr ++ [ev_ensureServiceAccount])
  end.
Proof.
  unfold VerifyIDToken, VerifyIDTokenWithTransport.
  unfold mbind at 1, IO_bind at 1. unfold ensureServiceAccount, ask.
  by destruct (ensureServiceAccount_ env tr (options (app a))).
Qed.

Lemma VerifyIDToken_after_ensure (a : Auth) h (tokenString : string) tr cred :
  ensureServiceAccount_ env tr (options (app a)) = Ok cred →
  VerifyIDToken env a tokenString tr =
  verifySessionCookie env h (ProjectID cred) tokenString
                      (tr ++ [ev_ensureServiceAccount]).
Proof.
  intros Hcred. by rewrite (VerifyIDToken_run a h), Hcred.
Qed.

(** Neither verification path hands anything to the dispatcher. *)
Lemma dispatches_snoc tr (ev : Event) :
  is_dispatch ev = false → dispatches (tr ++ [ev]) = dispatches tr.
Proof.
  intros Hev. unfold dispatches. rewrite List.filter_app. cbn.
  rewrite Hev. apply app_nil_r.
Qed.

Lemma verifySessionCookie_dispatches h (projectID cookie : string) tr :
  dispatches (verifySessionCookie env h projectID cookie tr).2 = dispatches tr.
Proof.
  unfold verifySessionCookie, newIDTokenVerifier, VerifyToken. run_io.
  destruct (newIDTokenVerifier_ env tr projectID); cbn;
    rewrite ?dispatches_snoc; done.
Qed.

Lemma VerifyIDToken_dispatches (a : Auth) (tokenString : string) tr :
  dispatches (VerifyIDToken env a tokenString tr).2 = dispatches tr.
Proof.
  rewrite (VerifyIDToken_run a {| h_ts := None |}).
  destruct (ensureServiceAccount_ env tr (options (app a))).
  - by rewrite verifySessionCookie_dispatches, dispatches_snoc.
  - cbn. by rewrite dispatches_snoc.
Qed.

End SessionProperties.

(** ** Integers through float64 *)

Section Float64.











End Float64.

(** ** Fractions of a second through float64 *)




























(** ** Auth.CreateSessionCookie *)

Section CreateSessionCookieProperties.

Context (env : Env Token).
Implicit Types (auth : Auth) (tr : Trace) (idToken : string).

(** The default validity: five days are 432000 seconds, through the
    [float64] of [Duration.Seconds]. *)
Lemma default_expiry :
  int64_of_float64 (Duration_Seconds (time_Hour * 24 * 5)) = 432000.
Proof. vm_compute. reflexivity. Qed.

Lemma CreateSessionCookie_run auth idToken (duration : option Z) tr :
  CreateSessionCookie env auth idToken duration tr =
  match ensureTokenSource_ env tr auth with
  | Err e0 =>
      (Err (errors_Wrap e0 "Error ensuring token source"),
       tr ++ [ev_ensureTokenSource])
  | Ok ts' =>
      match VerifyIDToken env auth idToken (tr ++ [ev_ensureTokenSource]) with
      | (Err e, tr2) => (Err e, tr2)
      | (Ok _, tr2) =>
          createSessionCookie env {| h_ts := Some ts' |} idToken
            match duration with
            | Some d => int64_of_float64 (Duration_Seconds d)
            | None => 432000
            end tr2
      end
  end.
Proof.
  unfold CreateSessionCookie.
  unfold mbind at 1, IO_bind at 1. unfold wrapping, ensureTokenSource, ask.
  destruct (ensureTokenSource_ env tr auth) as [ts'|e0]; [|done].
  unfold mbind at 1, IO_bind at 1.
  destruct (VerifyIDToken env auth idToken (tr ++ [ev_ensureTokenSource]))
    as [[tok|e] tr2]; [|done].
  rewrite default_expiry. reflexivity.
Qed.

(** C9, amended. The bearer-token source is ensured first.  For an idToken
    on which [VerifyIDToken], run after that step, fails: nothing is handed
    to the dispatcher, and the call returns the verification error when the
    token source was ensured, the wrapped token-source error otherwise. *)
Theorem CreateSessionCookie_verifies_first
    auth idToken (duration : option Z) tr (e : error) tr2 :
  VerifyIDToken env auth idToken (tr ++ [ev_ensureTokenSource]) = (Err e, tr2) →
  let r := CreateSessionCookie env auth idToken duration tr in
  dispatches r.2 = dispatches tr ∧
  match ensureTokenSource_ env tr auth with
  | Ok _ => r = (Err e, tr2)
  | Err e0 =>
      r = (Err (errors_Wrap e0 "Error ensuring token source"),
           tr ++ [ev_ensureTokenSource])
  end.
Proof.
  intros Hverify r. subst r. rewrite CreateSessionCookie_run.
  pose proof (VerifyIDToken_dispatches env auth idToken
                (tr ++ [ev_ensureTokenSource])) as Hd.
  rewrite Hverify in Hd. cbn in Hd.
  destruct (ensureTokenSource_ env tr auth) as [ts'|e0].
  - rewrite Hverify. cbn. by rewrite Hd, dispatches_snoc.
  - cbn. by rewrite dispatches_snoc.
Qed.


End CreateSessionCookieProperties.

(** ** Concrete runs *)

(** C1. What the code does instead: [verifySessionCookieAndCheckRevoked]
    tests the result of [checkRevoked] with the opposite sense.  A token
    issued at second 100 is not revoked for an account whose tokens are valid
    after millisecond 0, yet the call fails with "Token has been revoked";
    the same token is revoked for an account whose tokens are valid after
    millisecond 200000, and the call returns the account record. *)
Theorem verifySessionCookieAndCheckRevoked_inverted :
  ¬ (IssuedAt alice_token * 1000 < TokensValidAfterMillis (user_with "alice" 0)) ∧
  (verifySessionCookieAndCheckRevoked
     (env_ok alice_token (user_with "alice" 0)) demo_handler "demo" "cookie" []).1
  = Err errRevoked ∧
  IssuedAt alice_token * 1000 < TokensValidAfterMillis (user_with "alice" 200000) ∧
  (verifySessionCookieAndCheckRevoked
     (env_ok alice_token (user_with "alice" 200000)) demo_handler "demo" "cookie" []).1
  = Ok (user_with "alice" 200000).
Proof. repeat split; try reflexivity. cbn. lia. Qed.

(** C2 as the specification states it, at an input where the product leaves
    [int64]: the token is issued after the threshold, and [checkRevoked]
    answers true. *)
Lemma checkRevoked_wraps :
  ¬ ((checkRevoked (env_ok far_token (user_with "alice" 0)) demo_handler far_token []).1
       = Ok true
     ↔ IssuedAt far_token * 1000 < TokensValidAfterMillis (user_with "alice" 0)).
Proof.
  intros [Hcode _].
  assert (IssuedAt far_token * 1000 < TokensValidAfterMillis (user_with "alice" 0))
    as Hlt by (apply Hcode; vm_compute; reflexivity).
  cbn in Hlt. lia.
Qed.

Lemma checkRevoked_iff_witness :
  getAccountByUID_ (env_ok alice_token (user_with "alice" 100000)) [] demo_handler
                   (UID alice_token) = Ok (user_with "alice" 100000) ∧
  in_int64 (IssuedAt alice_token * 1000) ∧
  ∃ revoked : bool,
    (checkRevoked (env_ok alice_token (user_with "alice" 100000))
                  demo_handler alice_token []).1 = Ok revoked ∧
    (revoked = true ↔
       IssuedAt alice_token * 1000 < TokensValidAfterMillis (user_with "alice" 100000)) ∧
    (IssuedAt alice_token * 1000 = TokensValidAfterMillis (user_with "alice" 100000) →
       revoked = false).
Proof.
  assert (Hfit : in_int64 (IssuedAt alice_token * 1000))
    by (unfold in_int64, int64_min, int64_max; cbn; lia).
  split; [reflexivity|]. split; [exact Hfit|].
  exact (checkRevoked_iff (env_ok alice_token (user_with "alice" 100000))
           demo_handler alice_token [] (user_with "alice" 100000) eq_refl Hfit).
Defined.

(** C4 negated: there are no collaborators, no Auth, no token string and no
    project for which exactly one of the two paths accepts. *)
Lemma verification_paths_agree :
  ¬ ∃ (env : Env Token) (a : Auth) (h : requestHandler) (tokenString : string)
      (tr : Trace) (cred : GoogleServiceAccountCredential),
      ensureServiceAccount_ env tr (options (app a)) = Ok cred ∧
      is_Ok (VerifyIDToken env a tokenString tr).1
      ≠ is_Ok (verifySessionCookie env h (ProjectID cred) tokenString
                 (tr ++ [ev_ensureServiceAccount])).1.
Proof.
  intros (env & a & h & tokenString & tr & cred & Hcred & Hdiff).
  apply Hdiff. by rewrite (VerifyIDToken_after_ensure env a h tokenString tr cred).
Qed.

(** C5 as the specification states it, at a token with an empty user-id:
    the account lookup is made, and the error is the one of the lookup. *)
Lemma checkRevoked_empty_uid :
  UID anonymous_token = "" ∧
  (checkRevoked env_unknown_user demo_handler anonymous_token []).1
    = Err AuthErrUserNotFound ∧
  (checkRevoked env_unknown_user demo_handler anonymous_token []).1
    ≠ Err Earlier.errMissingUID ∧
  (checkRevoked env_unknown_user demo_handler anonymous_token []).2
    = [ev_getAccountByUID ""].
Proof. repeat split; try reflexivity. discriminate. Qed.

(** C9 as the specification states it, at an idToken that never verifies,
    when no token source can be built: the call returns the token-source
    error, not the verification error. *)
Lemma CreateSessionCookie_token_source_first :
  (∀ tr, (VerifyIDToken env_no_token_source demo_auth "bad" tr).1
         = Err errMalformedToken) ∧
  (CreateSessionCookie env_no_token_source demo_auth "bad" None []).1
    = Err (errors_Wrap errNoTokenSource "Error ensuring token source") ∧
  (CreateSessionCookie env_no_token_source demo_auth "bad" None []).1
    ≠ Err errMalformedToken.
Proof. repeat split; try reflexivity. discriminate. Qed.

Lemma CreateSessionCookie_verifies_first_witness :
  VerifyIDToken env_rejecting demo_auth "bad" ([] ++ [ev_ensureTokenSource])
    = (Err errMalformedToken,
       [ev_ensureTokenSource; ev_ensureServiceAccount;
        ev_newIDTokenVerifier "demo"; ev_VerifyToken "demo" "bad"]) ∧
  dispatches (CreateSessionCookie env_rejecting demo_auth "bad" None []).2 = [] ∧
  CreateSessionCookie env_rejecting demo_auth "bad" None []
    = (Err errMalformedToken,
       [ev_ensureTokenSource; ev_ensureServiceAccount;
        ev_newIDTokenVerifier "demo"; ev_VerifyToken "demo" "bad"]).
Proof.
  split; [reflexivity|].
  exact (CreateSessionCookie_verifies_first env_rejecting demo_auth "bad" None []
           errMalformedToken _ eq_refl).
Defined.



(** Fourteen days, a second and a half, and a negative duration. *)
Example validDuration_examples :
  int64_of_float64 (Duration_Seconds (time_Hour * 24 * 14)) = 1209600 ∧
  int64_of_float64 (Duration_Seconds 1500000000) = 1 ∧
  int64_of_float64 (Duration_Seconds (-1500000000)) = -1 ∧
  int64_of_float64 (Duration_Seconds 999999999) = 0.
Proof. vm_compute. done. Qed.

(** Beyond 2^24 seconds the [float64] sum of [Duration.Seconds] can round up
    to the next second: 16777216.999999999 s becomes 16777217. *)
Example validDuration_rounding :
  int64_of_float64 (Duration_Seconds (16777216 * time_Second + 999999999))
  = 16777217.
Proof. vm_compute. reflexivity. Qed.

(** ** The earlier revision of the session-cookie manager *)

Section EarlierSessionProperties.

Context {Token0 Time : Type}.
Context (Token_UID : Token0 → string * bool).
Context (Token_IssuedAt : Token0 → Time * bool).
Context (Time_Second : Time → Z).
Context (env : Env Token0).
Implicit Types (h : requestHandler) (t : Token0) (tr : Trace).

Local Abbreviation checkRevoked0 :=
  (Earlier.checkRevoked Token_UID Token_IssuedAt Time_Second env).
Local Abbreviation verifyAndCheck0 :=
  (Earlier.verifySessionCookieAndCheckRevoked
     Token_UID Token_IssuedAt Time_Second env).

(** That revision did guard the user-id: without one, [checkRevoked]
    fails before the account lookup. *)
Lemma Earlier_checkRevoked_guard h t tr (uid : string) :
  Token_UID t = (uid, false) →
  checkRevoked0 h t tr = (Err Earlier.errMissingUID, tr).
Proof. intros Huid. unfold Earlier.checkRevoked. by rewrite Huid. Qed.

Lemma Earlier_checkRevoked_fetches h t tr (uid : string) :
  Token_UID t = (uid, true) →
  (checkRevoked0 h t tr).2 = tr ++ [ev_getAccountByUID uid].
Proof.
  intros Huid. unfold Earlier.checkRevoked, getAccountByUID.
  rewrite Huid. run_io.
  destruct (getAccountByUID_ env tr h uid); [|done].
  by destruct (Token_IssuedAt t) as [iat []].
Qed.

(** It compared the second within the minute, not the epoch seconds: an
    account whose tokens are valid after the first minute of 1970 makes
    every token revoked. *)
Lemma Earlier_checkRevoked_second_of_minute h t tr (uid : string) (iat : Time)
    (user : UserRecord) :
  (∀ x, 0 <= Time_Second x <= 59) →
  Token_UID t = (uid, true) →
  Token_IssuedAt t = (iat, true) →
  getAccountByUID_ env tr h uid = Ok user →
  60000 <= TokensValidAfterMillis user →
  (checkRevoked0 h t tr).1 = Ok true.
Proof.
  intros Hsec Huid Hiat Huser Hafter.
  unfold Earlier.checkRevoked, getAccountByUID. rewrite Huid. run_io.
  rewrite Huser, Hiat. cbn. f_equal. apply Z.ltb_lt.
  specialize (Hsec iat).
  rewrite int64_wrap_id; [lia|].
  unfold in_int64, int64_min, int64_max. lia.
Qed.

(** It tested the result of [checkRevoked] with the same sense as the
    later revision. *)
Lemma Earlier_verifySessionCookieAndCheckRevoked_not_revoked
    h (projectID cookie : string) tr t tr1 tr2 :
  Earlier.verifySessionCookie env h projectID cookie tr = (Ok t, tr1) →
  checkRevoked0 h t tr1 = (Ok false, tr2) →
  verifyAndCheck0 h projectID cookie tr = (Err errRevoked, tr2).
Proof.
  intros Hverify Hcheck. unfold Earlier.verifySessionCookieAndCheckRevoked.
  unfold mbind at 1, IO_bind at 1. rewrite Hverify.
  unfold mbind at 1, IO_bind at 1. by rewrite Hcheck.
Qed.

End EarlierSessionProperties.

(** Its request validator for the create-session-cookie operation was the
    same. *)
Lemma Earlier_createSessionCookie_request_rejected (req : createSessionCookieRequest) :
  reqFn Earlier.createSessionCookieAPI (box req) = Some errIllegalType.
Proof. reflexivity. Qed.

(** * Further properties *)

(** ** Merging claims and reading them back *)

Section MoreTokenProperties.

Implicit Types (t : Token) (m : claims_map) (k : string) (v : iface).

Lemma index_default (c : claims_map) k : index c k = default i_nil (entry c k).
Proof. by destruct c. Qed.

Lemma index_SetClaims t m k :
  index (Claims (SetClaims m t)) k =
  match entry m k with
  | Some v => v
  | None => index (Claims t) k
  end.
Proof.
  rewrite !index_default, entry_SetClaims. by destruct (entry m k).
Qed.

(** X1. Two merges in a row: a key is read from the second map if it is
    there, else from the first, else from the token as it was; the later
    merge wins on a key both maps have. *)
Theorem SetClaims_last_write_wins t (m1 m2 : claims_map) k :
  entry (Claims (SetClaims m2 (SetClaims m1 t))) k =
  match entry m2 k with
  | Some v => Some v
  | None =>
      match entry m1 k with
      | Some v => Some v
      | None => entry (Claims t) k
      end
  end.
Proof. by rewrite !entry_SetClaims. Qed.

(** X2. Merging the same map a second time changes nothing: the token after
    two calls is the token after one. *)
Theorem SetClaims_idempotent t m :
  SetClaims m (SetClaims m t) = SetClaims m t.
Proof.
  destruct t as [iss aud exp iat sub uid [dst|]]; destruct m as [src|];
    unfold SetClaims, with_Claims; cbn [Claims Issuer Audience Expires IssuedAt
                                        Subject UID]; try reflexivity.
  - rewrite !range_assign_union. do 2 f_equal.
    by rewrite (assoc_L (∪)), (idemp_L (∪)).
  - rewrite range_assign_union. do 2 f_equal. by rewrite (idemp_L (∪)).
Qed.

(** X3. Merging and reading back: after [SetClaims(m)] an accessor returns
    the value [m] holds under its key when that value has the accessor's
    type, and what it returned before when [m] does not have the key. *)
Theorem accessors_after_SetClaims t m :
  (∀ n, entry m "auth_time" = Some (i_int64 n) →
        AuthTime (SetClaims m t) = Returns n) ∧
  (∀ s, entry m "name" = Some (i_string s) → Name (SetClaims m t) = Returns s) ∧
  (∀ s, entry m "picture" = Some (i_string s) →
        Picture (SetClaims m t) = Returns s) ∧
  (∀ s, entry m "email" = Some (i_string s) → Email_ (SetClaims m t) = Returns s) ∧
  (∀ b, entry m "email_verified" = Some (i_bool b) →
        IsEmailVerified (SetClaims m t) = Returns b) ∧
  (entry m "auth_time" = None → AuthTime (SetClaims m t) = AuthTime t) ∧
  (entry m "name" = None → Name (SetClaims m t) = Name t) ∧
  (entry m "picture" = None → Picture (SetClaims m t) = Picture t) ∧
  (entry m "email" = None → Email_ (SetClaims m t) = Email_ t) ∧
  (entry m "email_verified" = None →
     IsEmailVerified (SetClaims m t) = IsEmailVerified t).
Proof.
  unfold AuthTime, Name, Picture, Email_, IsEmailVerified.
  repeat split; intros; rewrite index_SetClaims;
    match goal with H : entry m _ = _ |- _ => by rewrite H end.
Qed.

(** X4. The accessors of the two revisions agree wherever the earlier one
    returns, and where the earlier one panics the later one returns the zero
    value. *)
Theorem accessors_refine_earlier t :
  (∀ n, Earlier.AuthTime t = Returns n → AuthTime t = Returns n) ∧
  (∀ s, Earlier.Name t = Returns s → Name t = Returns s) ∧
  (∀ s, Earlier.Picture t = Returns s → Picture t = Returns s) ∧
  (∀ s, Earlier.Email_ t = Returns s → Email_ t = Returns s) ∧
  (∀ b, Earlier.IsEmailVerified t = Returns b → IsEmailVerified t = Returns b) ∧
  (Earlier.AuthTime t = Panics → AuthTime t = Returns 0) ∧
  (Earlier.Name t = Panics → Name t = Returns "") ∧
  (Earlier.Picture t = Panics → Picture t = Returns "") ∧
  (Earlier.Email_ t = Panics → Email_ t = Returns "") ∧
  (Earlier.IsEmailVerified t = Panics → IsEmailVerified t = Returns false).
Proof.
  unfold Earlier.AuthTime, Earlier.Name, Earlier.Picture, Earlier.Email_,
    Earlier.IsEmailVerified, AuthTime, Name, Picture, Email_, IsEmailVerified,
    must.
  repeat split; intros *;
    match goal with
    | |- context [index (Claims t) ?k] => destruct (index (Claims t) k)
    end; cbn; congruence.
Qed.

(** X5. The empty merges: [SetClaims(nil)] leaves every token as it is, and
    so does the merge of an empty map into a token that has a claims map; a
    token whose claims map is nil gets the empty map, so that its [Claims] is
    no longer nil. *)
Theorem SetClaims_nothing t :
  SetClaims None t = t ∧
  (Claims t ≠ None → SetClaims (Some ∅) t = t) ∧
  (Claims t = None → Claims (SetClaims (Some ∅) t) = Some ∅).
Proof.
  destruct t as [iss aud exp iat sub uid [dst|]];
    unfold SetClaims, with_Claims; cbn; repeat split; done.
Qed.

End MoreTokenProperties.

(** ** The validators of the create-session-cookie operation *)

(** Case analysis for a validator applied to a value of known shape. *)
Ltac validator_cases :=
  repeat match goal with
         | |- _ ∧ _ => split
         | |- _ ↔ _ => split
         end;
  intros;
  repeat match goal with
         | H : ∃ _, _ |- _ => destruct H
         | H : _ ∧ _ |- _ => destruct H
         | H : _ ∨ _ |- _ => destruct H
         end;
  simplify_eq; cbn in *;
  try done;
  try (eexists; split; [reflexivity|]; cbn; first [done | by left | by right]);
  try (eexists; reflexivity);
  try match goal with
      | H : ∀ r, ?c ?x ≠ ?c r |- _ => by destruct (H x)
      end.

(** X6. The request validator accepts exactly the account-lookup requests
    that name a user-id or an email; it reports [errMissingRequestTarget]
    exactly for the account-lookup requests that name neither, and
    [errIllegalType] exactly for the values of any other dynamic type. *)
Theorem reqFn_accepts_iff (src : iface) :
  (reqFn createSessionCookieAPI src = None ↔
   ∃ r, src = i_getAccountInfoRequest r ∧ (LocalID r ≠ [] ∨ Email r ≠ [])) ∧
  (reqFn createSessionCookieAPI src = Some errMissingRequestTarget ↔
   ∃ r, src = i_getAccountInfoRequest r ∧ LocalID r = [] ∧ Email r = []) ∧
  (reqFn createSessionCookieAPI src = Some errIllegalType ↔
   ∀ r, src ≠ i_getAccountInfoRequest r).
Proof.
  destruct src as [| | | | |[[|l ls] [|e es]]| | |]; cbn; validator_cases.
Qed.

(** X7. The response validators of the two revisions: the later one accepts
    every account-lookup response, the earlier one only those with a user in
    them and reports [AuthErrUserNotFound] for the empty ones; both report
    [errIllegalType] for any other value, and what the earlier one accepts
    the later one accepts. *)
Theorem respFn_revisions (src : iface) :
  (respFn createSessionCookieAPI src = None ↔ ∃ r, src = i_getAccountInfoResponse r) ∧
  (respFn Earlier.createSessionCookieAPI src = None ↔
   ∃ r, src = i_getAccountInfoResponse r ∧ Users r ≠ []) ∧
  (respFn Earlier.createSessionCookieAPI src = Some AuthErrUserNotFound ↔
   ∃ r, src = i_getAccountInfoResponse r ∧ Users r = []) ∧
  (respFn Earlier.createSessionCookieAPI src = Some errIllegalType ↔
   respFn createSessionCookieAPI src = Some errIllegalType) ∧
  (respFn Earlier.createSessionCookieAPI src = None →
   respFn createSessionCookieAPI src = None).
Proof.
  destruct src as [| | | | | |[[|u us]]| |]; cbn; validator_cases.
Qed.

(** ** More on the session-cookie manager *)

Section MoreSessionProperties.

Context (env : Env Token).
Implicit Types (h : requestHandler) (t : Token) (tr : Trace).

(** What a verification appends to the trace. *)
Lemma verifySessionCookie_trace h (projectID cookie : string) tr :
  (verifySessionCookie env h projectID cookie tr).2
    = tr ++ [ev_newIDTokenVerifier projectID] ∨
  ∃ p, (verifySessionCookie env h projectID cookie tr).2
       = tr ++ [ev_newIDTokenVerifier projectID; ev_VerifyToken p cookie].
Proof.
  unfold verifySessionCookie, newIDTokenVerifier, VerifyToken. run_io.
  destruct (newIDTokenVerifier_ env tr projectID) as [v|e]; cbn; [|by left].
  right. exists (tv_projectID v). by rewrite <- app_assoc.
Qed.

(** X8. A cookie that fails verification: [verifySessionCookieAndCheckRevoked]
    and [checkSessionCookieRevoked] both return the error of the verifier, and
    neither looks an account up; the trace holds the calls of the verifier
    and nothing else. *)
Theorem verification_failure_stops h (projectID cookie : string) tr (e : error) tr1 :
  verifySessionCookie env h projectID cookie tr = (Err e, tr1) →
  verifySessionCookieAndCheckRevoked env h projectID cookie tr = (Err e, tr1) ∧
  checkSessionCookieRevoked env h projectID cookie tr = (Err e, tr1) ∧
  (tr1 = tr ++ [ev_newIDTokenVerifier projectID] ∨
   ∃ p, tr1 = tr ++ [ev_newIDTokenVerifier projectID; ev_VerifyToken p cookie]).
Proof.
  intros Hverify.
  unfold verifySessionCookieAndCheckRevoked, checkSessionCookieRevoked.
  unfold mbind at 1 3, IO_bind at 1 3. rewrite Hverify.
  repeat split.
  pose proof (verifySessionCookie_trace h projectID cookie tr) as Htr.
  by rewrite Hverify in Htr.
Qed.

(** A run that returns a record, taken apart. *)
Lemma verifySessionCookieAndCheckRevoked_accepts
    h (projectID cookie : string) tr (user : UserRecord) tr' :
  verifySessionCookieAndCheckRevoked env h projectID cookie tr = (Ok user, tr') →
  ∃ t tr1 (user0 : UserRecord),
    verifySessionCookie env h projectID cookie tr = (Ok t, tr1) ∧
    getAccountByUID_ env tr1 h (UID t) = Ok user0 ∧
    int64_wrap (IssuedAt t * 1000) < TokensValidAfterMillis user0 ∧
    getAccountByUID_ env (tr1 ++ [ev_getAccountByUID (UID t)]) h (UID t) = Ok user ∧
    tr' = tr1 ++ [ev_getAccountByUID (UID t); ev_getAccountByUID (UID t)] ∧
    (checkSessionCookieRevoked env h projectID cookie tr).1 = Ok true.
Proof.
  unfold verifySessionCookieAndCheckRevoked, checkSessionCookieRevoked.
  unfold mbind at 1 3, IO_bind at 1 3.
  destruct (verifySessionCookie env h projectID cookie tr) as [[t|e] tr1];
    [|discriminate].
  unfold mbind, IO_bind. rewrite checkRevoked_run.
  destruct (getAccountByUID_ env tr1 h (UID t)) as [user0|e] eqn:Hfirst;
    [|discriminate].
  destruct (int64_wrap (IssuedAt t * 1000) <? TokensValidAfterMillis user0)
    eqn:Hcmp; cbn; [|discriminate].
  unfold getAccountByUID, ask. intros [= Hsecond <-].
  exists t, tr1, user0. repeat split; try done.
  - by apply Z.ltb_lt.
  - by rewrite <- app_assoc.
Qed.

(** X9. When [verifySessionCookieAndCheckRevoked] returns an account record,
    the verified token compares as revoked against the record of the first
    lookup, [checkSessionCookieRevoked] answers true on the same cookie, and
    the record returned is the answer of a second lookup under the same
    user-id; two lookups are made in all. *)
Theorem accepted_cookie_is_revoked
    h (projectID cookie : string) tr (user : UserRecord) tr' :
  verifySessionCookieAndCheckRevoked env h projectID cookie tr = (Ok user, tr') →
  ∃ t tr1 (user0 : UserRecord),
    verifySessionCookie env h projectID cookie tr = (Ok t, tr1) ∧
    getAccountByUID_ env tr1 h (UID t) = Ok user0 ∧
    int64_wrap (IssuedAt t * 1000) < TokensValidAfterMillis user0 ∧
    getAccountByUID_ env (tr1 ++ [ev_getAccountByUID (UID t)]) h (UID t) = Ok user ∧
    tr' = tr1 ++ [ev_getAccountByUID (UID t); ev_getAccountByUID (UID t)] ∧
    (checkSessionCookieRevoked env h projectID cookie tr).1 = Ok true.
Proof. apply verifySessionCookieAndCheckRevoked_accepts. Qed.

(** X10. Within the range where the product fits in an [int64], revocation
    is monotone: if a token is revoked against a threshold, every token
    issued no later is revoked against every threshold that is no
    smaller. *)
Theorem checkRevoked_monotone h t1 t2 tr1 tr2 (u1 u2 : UserRecord) :
  getAccountByUID_ env tr1 h (UID t1) = Ok u1 →
  getAccountByUID_ env tr2 h (UID t2) = Ok u2 →
  in_int64 (IssuedAt t1 * 1000) → in_int64 (IssuedAt t2 * 1000) →
  IssuedAt t1 <= IssuedAt t2 →
  TokensValidAfterMillis u2 <= TokensValidAfterMillis u1 →
  (checkRevoked env h t2 tr2).1 = Ok true →
  (checkRevoked env h t1 tr1).1 = Ok true.
Proof.
  intros Hu1 Hu2 Hfit1 Hfit2 Hiat Hafter.
  rewrite !checkRevoked_run, Hu1, Hu2. cbn.
  rewrite !int64_wrap_id by done.
  intros [= Hlt%Z.ltb_lt]. f_equal. apply Z.ltb_lt. lia.
Qed.

End MoreSessionProperties.

Lemma verification_failure_stops_witness :
  verifySessionCookie env_rejecting demo_handler "demo" "bad" []
    = (Err errMalformedToken,
       [ev_newIDTokenVerifier "demo"; ev_VerifyToken "demo" "bad"]) ∧
  verifySessionCookieAndCheckRevoked env_rejecting demo_handler "demo" "bad" []
    = (Err errMalformedToken,
       [ev_newIDTokenVerifier "demo"; ev_VerifyToken "demo" "bad"]).
Proof.
  split; [reflexivity|].
  exact (proj1 (verification_failure_stops env_rejecting demo_handler "demo" "bad"
                  [] errMalformedToken _ eq_refl)).
Defined.

Lemma accepted_cookie_is_revoked_witness :
  verifySessionCookieAndCheckRevoked
    (env_ok alice_token (user_with "alice" 200000)) demo_handler "demo" "cookie" []
  = (Ok (user_with "alice" 200000),
     [ev_newIDTokenVerifier "demo"; ev_VerifyToken "demo" "cookie";
      ev_getAccountByUID "alice"; ev_getAccountByUID "alice"]) ∧
  ∃ t tr1 (user0 : UserRecord),
    verifySessionCookie (env_ok alice_token (user_with "alice" 200000))
      demo_handler "demo" "cookie" [] = (Ok t, tr1) ∧
    getAccountByUID_ (env_ok alice_token (user_with "alice" 200000)) tr1
      demo_handler (UID t) = Ok user0 ∧
    int64_wrap (IssuedAt t * 1000) < TokensValidAfterMillis user0 ∧
    getAccountByUID_ (env_ok alice_token (user_with "alice" 200000))
      (tr1 ++ [ev_getAccountByUID (UID t)]) demo_handler (UID t)
      = Ok (user_with "alice" 200000) ∧
    [ev_newIDTokenVerifier "demo"; ev_VerifyToken "demo" "cookie";
     ev_getAccountByUID "alice"; ev_getAccountByUID "alice"]
      = tr1 ++ [ev_getAccountByUID (UID t); ev_getAccountByUID (UID t)] ∧
    (checkSessionCookieRevoked (env_ok alice_token (user_with "alice" 200000))
       demo_handler "demo" "cookie" []).1 = Ok true.
Proof.
  split; [reflexivity|].
  exact (accepted_cookie_is_revoked (env_ok alice_token (user_with "alice" 200000))
           demo_handler "demo" "cookie" [] _ _ eq_refl).
Defined.

Lemma checkRevoked_monotone_witness :
  IssuedAt (token_for "bob" 50 None) <= IssuedAt alice_token ∧
  (checkRevoked (env_ok alice_token (user_with "alice" 200000)) demo_handler
     alice_token []).1 = Ok true ∧
  (checkRevoked (env_ok alice_token (user_with "alice" 200000)) demo_handler
     (token_for "bob" 50 None) []).1 = Ok true.
Proof.
  assert (Hfit : ∀ z, 0 <= z <= 100 → in_int64 (z * 1000))
    by (unfold in_int64, int64_min, int64_max; lia).
  split; [cbn; lia|]. split; [reflexivity|].
  apply (checkRevoked_monotone (env_ok alice_token (user_with "alice" 200000))
           demo_handler (token_for "bob" 50 None) alice_token [] []
           (user_with "alice" 200000) (user_with "alice" 200000));
    try reflexivity; try (apply Hfit; cbn; lia); cbn; lia.
Defined.

(** ** More on the earlier revision of the session-cookie manager *)

Section MoreEarlierSessionProperties.

Context {Token0 Time : Type}.
Context (Token_UID : Token0 → string * bool).
Context (Token_IssuedAt : Token0 → Time * bool).
Context (Time_Second : Time → Z).
Context (env : Env Token0).
Implicit Types (h : requestHandler) (t : Token0) (tr : Trace).

Local Abbreviation checkRevoked1 :=
  (Earlier.checkRevoked Token_UID Token_IssuedAt Time_Second env).
Local Abbreviation verifyAndCheck1 :=
  (Earlier.verifySessionCookieAndCheckRevoked
     Token_UID Token_IssuedAt Time_Second env).

Lemma Earlier_checkRevoked_run h t tr (uid : string) (iat : Time) :
  Token_UID t = (uid, true) →
  Token_IssuedAt t = (iat, true) →
  checkRevoked1 h t tr =
  (match getAccountByUID_ env tr h uid with
   | Ok user => Ok (int64_wrap (Time_Second iat * 1000) <? TokensValidAfterMillis user)
   | Err e => Err e
   end,
   tr ++ [ev_getAccountByUID uid]).
Proof.
  intros Huid Hiat. unfold Earlier.checkRevoked, getAccountByUID.
  rewrite Huid. run_io. rewrite Hiat.
  by destruct (getAccountByUID_ env tr h uid).
Qed.

(** X11. The earlier [checkRevoked] saw only the second within the minute of
    the issue time: two tokens issued at the same second of different
    minutes get the same answer against the same account record, and an
    account whose tokens are valid after the first minute of 1970 makes every
    token revoked. *)
Theorem Earlier_checkRevoked_ignores_minutes
    h t1 t2 tr1 tr2 (uid1 uid2 : string) (iat1 iat2 : Time) (user : UserRecord) :
  (∀ x, 0 <= Time_Second x <= 59) →
  Token_UID t1 = (uid1, true) → Token_UID t2 = (uid2, true) →
  Token_IssuedAt t1 = (iat1, true) → Token_IssuedAt t2 = (iat2, true) →
  getAccountByUID_ env tr1 h uid1 = Ok user →
  getAccountByUID_ env tr2 h uid2 = Ok user →
  (Time_Second iat1 = Time_Second iat2 →
   (checkRevoked1 h t1 tr1).1 = (checkRevoked1 h t2 tr2).1) ∧
  (60000 <= TokensValidAfterMillis user → (checkRevoked1 h t1 tr1).1 = Ok true).
Proof.
  intros Hsec Huid1 Huid2 Hiat1 Hiat2 Hu1 Hu2.
  rewrite (Earlier_checkRevoked_run h t1 tr1 uid1 iat1),
          (Earlier_checkRevoked_run h t2 tr2 uid2 iat2) by done.
  rewrite Hu1, Hu2. cbn. split.
  - by intros ->.
  - intros Hafter. f_equal. apply Z.ltb_lt.
    specialize (Hsec iat1). rewrite int64_wrap_id; [lia|].
    unfold in_int64, int64_min, int64_max. lia.
Qed.

(** X12. The order of the failures of the earlier [checkRevoked]: a token
    without user-id fails before any lookup; with a user-id the lookup is
    made, its error comes first, and a missing issued-at is reported only
    after a lookup that succeeded. *)
Theorem Earlier_checkRevoked_failures h t tr (uid : string) :
  (Token_UID t = (uid, false) →
   checkRevoked1 h t tr = (Err Earlier.errMissingUID, tr)) ∧
  (Token_UID t = (uid, true) →
   ∀ e, getAccountByUID_ env tr h uid = Err e →
        checkRevoked1 h t tr = (Err e, tr ++ [ev_getAccountByUID uid])) ∧
  (Token_UID t = (uid, true) →
   ∀ user iat, getAccountByUID_ env tr h uid = Ok user →
               Token_IssuedAt t = (iat, false) →
               checkRevoked1 h t tr
               = (Err Earlier.errMissingIssuedAt, tr ++ [ev_getAccountByUID uid])).
Proof.
  unfold Earlier.checkRevoked, getAccountByUID.
  repeat split; intros Huid; rewrite Huid; [done| |].
  - intros e He. run_io. by rewrite He.
  - intros user iat Hu Hiat. run_io. by rewrite Hu, Hiat.
Qed.

(** X13. The earlier [verifySessionCookieAndCheckRevoked] tests the user-id
    again after [checkRevoked] has demanded it, so its own "Unable to extract
    user id from token" cannot occur: when the call ends with that error, the
    verifier or an account lookup returned it. *)
Theorem Earlier_UIDExtractionFailed_unreachable
    h (projectID cookie : string) tr tr' :
  verifyAndCheck1 h projectID cookie tr = (Err Earlier.errUIDExtractionFailed, tr') →
  (Earlier.verifySessionCookie env h projectID cookie tr).1
    = Err Earlier.errUIDExtractionFailed ∨
  ∃ tr0 (uid : string),
    getAccountByUID_ env tr0 h uid = Err Earlier.errUIDExtractionFailed.
Proof.
  unfold Earlier.verifySessionCookieAndCheckRevoked.
  unfold mbind at 1, IO_bind at 1.
  destruct (Earlier.verifySessionCookie env h projectID cookie tr)
    as [[t|e] tr1]; [|intros [= -> _]; by left].
  unfold mbind at 1, IO_bind at 1.
  unfold Earlier.checkRevoked, getAccountByUID.
  destruct (Token_UID t) as [uid []]; [|discriminate].
  run_io.
  destruct (getAccountByUID_ env tr1 h uid) as [user|e] eqn:Hfirst;
    [|intros [= -> _]; right; eauto].
  destruct (Token_IssuedAt t) as [iat []]; [|discriminate]. cbn.
  destruct (int64_wrap (Time_Second iat * 1000) <? TokensValidAfterMillis user);
    cbn; [|discriminate].
  destruct (getAccountByUID_ env (tr1 ++ [ev_getAccountByUID uid]) h uid)
    as [user'|e] eqn:Hsecond; [discriminate|].
  intros [= -> _]. right; eauto.
Qed.

End MoreEarlierSessionProperties.

Lemma unix_Second_range (x : Z) : 0 <= unix_Second x <= 59.
Proof. unfold unix_Second. pose proof (Z.mod_pos_bound x 60). lia. Qed.

Lemma Earlier_checkRevoked_ignores_minutes_witness :
  unix_Second 1700000000 = unix_Second 1700000060 ∧
  (Earlier.checkRevoked Token0_UID Token0_IssuedAt unix_Second
     (env0_fixed (Err errMalformedToken) (Ok (user_with "alice" 30000)))
     demo_handler (("alice", true), (1700000000, true)) []).1
  = (Earlier.checkRevoked Token0_UID Token0_IssuedAt unix_Second
       (env0_fixed (Err errMalformedToken) (Ok (user_with "alice" 30000)))
       demo_handler (("alice", true), (1700000060, true)) []).1.
Proof.
  split; [reflexivity|].
  exact (proj1 (Earlier_checkRevoked_ignores_minutes
                  Token0_UID Token0_IssuedAt unix_Second
                  (env0_fixed (Err errMalformedToken) (Ok (user_with "alice" 30000)))
                  demo_handler
                  (("alice", true), (1700000000, true))
                  (("alice", true), (1700000060, true))
                  [] [] "alice" "alice" 1700000000 1700000060
                  (user_with "alice" 30000)
                  unix_Second_range eq_refl eq_refl eq_refl eq_refl eq_refl eq_refl)
               eq_refl).
Defined.

Lemma Earlier_UIDExtractionFailed_unreachable_witness :
  Earlier.verifySessionCookieAndCheckRevoked Token0_UID Token0_IssuedAt unix_Second
    (env0_fixed (Err Earlier.errUIDExtractionFailed) (Ok (user_with "alice" 0)))
    demo_handler "demo" "cookie" []
  = (Err Earlier.errUIDExtractionFailed,
     [ev_newIDTokenVerifier "demo"; ev_VerifyToken "demo" "cookie"]) ∧
  ((Earlier.verifySessionCookie
      (env0_fixed (Err Earlier.errUIDExtractionFailed) (Ok (user_with "alice" 0)))
      demo_handler "demo" "cookie" []).1
   = Err Earlier.errUIDExtractionFailed ∨
   ∃ tr0 (uid : string),
     getAccountByUID_
       (env0_fixed (Err Earlier.errUIDExtractionFailed) (Ok (user_with "alice" 0)))
       tr0 demo_handler uid = Err Earlier.errUIDExtractionFailed).
Proof.
  split; [reflexivity|].
  exact (Earlier_UIDExtractionFailed_unreachable Token0_UID Token0_IssuedAt
           unix_Second
           (env0_fixed (Err Earlier.errUIDExtractionFailed) (Ok (user_with "alice" 0)))
           demo_handler "demo" "cookie" [] _ eq_refl).
Defined.

(** ** More on the Auth registry *)

Section MoreRegistry.

Implicit Types (st : authInstances_state) (a : App) (apps : list App).

(** X14. One instance per application name: after any sequence of requests
    on the empty registry, two different names are registered to two
    different pointers, and the pointer of a name addresses an Auth made for
    an App of that name. *)
Theorem registry_one_instance_per_name apps (n1 n2 : string) (p1 p2 : nat) :
  authInstances_m (requests apps authInstances_init) !! n1 = Some p1 →
  authInstances_m (requests apps authInstances_init) !! n2 = Some p2 →
  (n1 ≠ n2 → p1 ≠ p2) ∧
  ∃ au, auth_store (requests apps authInstances_init) !! p1 = Some au ∧
        name (app au) = n1.
Proof.
  intros H1 H2.
  pose proof (requests_wf apps _ registry_wf_init) as Hwf.
  split.
  - by apply (registry_distinct _ n1 n2 p1 p2 Hwf).
  - by apply Hwf.
Qed.

(** X15. The first App wins: when a name is requested for the first time, the
    Auth is made for the requesting App; a later request under the same name
    by another App, with other options, returns that Auth, makes no new one
    and leaves the registry as it is. *)
Theorem GetAuthWithApp_first_app_wins st a1 a2 (between : list App) :
  authInstances_m st !! name a1 = None →
  name a2 = name a1 →
  let first := GetAuthWithApp a1 st in
  let before := requests between first.2 in
  let again := GetAuthWithApp a2 before in
  ∃ p, again.1.1 = Some p ∧
       auth_store again.2 !! p = Some {| app := a1; ts := None |} ∧
       again.2 = before.
Proof.
  intros Hfresh Hname first before again.
  destruct (GetAuthWithApp_creates a1 st Hfresh) as [Hp Hstore].
  destruct (GetAuthWithApp_returns a1 st) as (p & Hret & Hreg).
  fold first in Hp, Hstore, Hret, Hreg.
  rewrite Hret in Hp. cbn in Hp. injection Hp as ->.
  assert (Hagain : again = ((Some (length (auth_store st)), None), before)).
  { apply GetAuthWithApp_hit. rewrite Hname. by apply requests_keep. }
  exists (length (auth_store st)). rewrite Hagain. cbn.
  repeat split. by apply requests_store.
Qed.

End MoreRegistry.

Lemma registry_one_instance_per_name_witness :
  authInstances_m (requests [app_named "a"; app_named "b"; app_named "a"]
                            authInstances_init) !! "a" = Some 0%nat ∧
  authInstances_m (requests [app_named "a"; app_named "b"; app_named "a"]
                            authInstances_init) !! "b" = Some 1%nat ∧
  ("a" ≠ "b" → 0%nat ≠ 1%nat).
Proof.
  assert (Ha : authInstances_m (requests [app_named "a"; app_named "b"; app_named "a"]
                                  authInstances_init) !! "a" = Some 0%nat)
    by (vm_compute; reflexivity).
  assert (Hb : authInstances_m (requests [app_named "a"; app_named "b"; app_named "a"]
                                  authInstances_init) !! "b" = Some 1%nat)
    by (vm_compute; reflexivity).
  split; [exact Ha|]. split; [exact Hb|].
  exact (proj1 (registry_one_instance_per_name
                  [app_named "a"; app_named "b"; app_named "a"] "a" "b" 0 1 Ha Hb)).
Defined.

Lemma GetAuthWithApp_first_app_wins_witness :
  authInstances_m authInstances_init !! name (app_named "a") = None ∧
  ∃ p,
    (GetAuthWithApp
       {| name := "a";
          options := {| ServiceAccountCredential := Some demo_credential |} |}
       (requests [app_named "b"]
          (GetAuthWithApp (app_named "a") authInstances_init).2)).1.1 = Some p ∧
    auth_store
      (GetAuthWithApp
         {| name := "a";
            options := {| ServiceAccountCredential := Some demo_credential |} |}
         (requests [app_named "b"]
            (GetAuthWithApp (app_named "a") authInstances_init).2)).2 !! p
    = Some {| app := app_named "a"; ts := None |} ∧
    (GetAuthWithApp
       {| name := "a";
          options := {| ServiceAccountCredential := Some demo_credential |} |}
       (requests [app_named "b"]
          (GetAuthWithApp (app_named "a") authInstances_init).2)).2
    = requests [app_named "b"]
        (GetAuthWithApp (app_named "a") authInstances_init).2.
Proof.
  split; [reflexivity|].
  exact (GetAuthWithApp_first_app_wins authInstances_init (app_named "a")
           {| name := "a";
              options := {| ServiceAccountCredential := Some demo_credential |} |}
           [app_named "b"] eq_refl eq_refl).
Defined.

(** ** The operations of Auth on users and session cookies *)

Section AuthOperations.

Context {UP Time : Type}.
Context (env : Env Token) (acc : AccountEnv UP Time).
Context (ProjectID_at : Trace → Auth → string).
Implicit Types (auth : Auth) (tr : Trace) (xs : list (AccountEvent UP)).

Lemma GetUser_run auth (uid : string) tr :
  GetUser env auth uid tr =
  match ensureTokenSource_ env tr auth with
  | Err e0 =>
      (Err (errors_Wrap e0 "Error ensuring token source"),
       tr ++ [ev_ensureTokenSource])
  | Ok ts' =>
      (getAccountByUID_ env (tr ++ [ev_ensureTokenSource]) {| h_ts := Some ts' |} uid,
       tr ++ [ev_ensureTokenSource; ev_getAccountByUID uid])
  end.
Proof.
  unfold GetUser, getAccountByUID, ensureTokenSource. run_io.
  destruct (ensureTokenSource_ env tr auth); [|done].
  by rewrite <- app_assoc.
Qed.

Lemma with_token_source_run auth tr xs :
  with_token_source (UP:=UP) env auth (tr, xs) =
  match ensureTokenSource_ env tr auth with
  | Err e0 =>
      (Err (errors_Wrap e0 "Error ensuring token source"),
       (tr ++ [ev_ensureTokenSource], xs))
  | Ok ts' => (Ok ts', (tr ++ [ev_ensureTokenSource], xs))
  end.
Proof.
  unfold with_token_source, on_trace, wrapping, ensureTokenSource, ask. cbn.
  by destruct (ensureTokenSource_ env tr auth).
Qed.

Lemma UpdateUser_run auth (uid : string) (properties : UP) tr xs :
  UpdateUser env acc auth uid properties (tr, xs) =
  match ensureTokenSource_ env tr auth with
  | Err e0 =>
      (Err (errors_Wrap e0 "Error ensuring token source"),
       (tr ++ [ev_ensureTokenSource], xs))
  | Ok ts' =>
      let h := {| h_ts := Some ts' |} in
      let tr1 := tr ++ [ev_ensureTokenSource] in
      let xs1 := xs ++ [ev_updateExistingAccount uid properties] in
      match updateExistingAccount_ acc (tr1, xs) h uid properties with
      | Err e => (Err e, (tr1, xs1))
      | Ok uid' =>
          (getAccountByUID_ env tr1 h uid', (tr1 ++ [ev_getAccountByUID uid'], xs1))
      end
  end.
Proof.
  unfold UpdateUser. unfold mbind at 1, AIO_bind at 1.
  rewrite with_token_source_run.
  destruct (ensureTokenSource_ env tr auth) as [ts'|e0]; [|done].
  unfold mbind, AIO_bind, updateExistingAccount, account_ask. cbn.
  by destruct (updateExistingAccount_ _ _ _ _ _).
Qed.

Lemma VerifySessionCookieAndCheckRevoked_run auth (cookie : string) tr :
  VerifySessionCookieAndCheckRevoked env ProjectID_at auth cookie tr =
  match ensureTokenSource_ env tr auth with
  | Err e0 =>
      (Err (errors_Wrap e0 "Error ensuring token source"),
       tr ++ [ev_ensureTokenSource])
  | Ok ts' =>
      verifySessionCookieAndCheckRevoked env {| h_ts := Some ts' |}
        (ProjectID_at (tr ++ [ev_ensureTokenSource]) auth) cookie
        (tr ++ [ev_ensureTokenSource])
  end.
Proof.
  unfold VerifySessionCookieAndCheckRevoked.
  unfold mbind at 1, IO_bind at 1. unfold wrapping, ensureTokenSource, ask.
  by destruct (ensureTokenSource_ env tr auth).
Qed.

Lemma CheckRevoked_run auth (cookie : string) tr :
  CheckRevoked env ProjectID_at auth cookie tr =
  match ensureTokenSource_ env tr auth with
  | Err e0 =>
      (Err (errors_Wrap e0 "Error ensuring token source"),
       tr ++ [ev_ensureTokenSource])
  | Ok ts' =>
      checkSessionCookieRevoked env {| h_ts := Some ts' |}
        (ProjectID_at (tr ++ [ev_ensureTokenSource]) auth) cookie
        (tr ++ [ev_ensureTokenSource])
  end.
Proof.
  unfold CheckRevoked.
  unfold mbind at 1, IO_bind at 1. unfold wrapping, ensureTokenSource, ask.
  by destruct (ensureTokenSource_ env tr auth).
Qed.

(** X16. No token source, no backend: when the bearer-token source cannot be
    ensured, every operation of Auth that talks to the backend returns the
    error wrapped with "Error ensuring token source" and has done nothing
    else: no verification, no account lookup, no account operation, no read
    of the clock. *)
Theorem no_token_source_no_backend auth tr xs (e0 : error) :
  ensureTokenSource_ env tr auth = Err e0 →
  let wrapped := errors_Wrap e0 "Error ensuring token source" in
  let tr1 := tr ++ [ev_ensureTokenSource] in
  (∀ uid, GetUser env auth uid tr = (Err wrapped, tr1)) ∧
  (∀ cookie, VerifySessionCookieAndCheckRevoked env ProjectID_at auth cookie tr
             = (Err wrapped, tr1)) ∧
  (∀ cookie, CheckRevoked env ProjectID_at auth cookie tr = (Err wrapped, tr1)) ∧
  (∀ cookie, VerifySessionCookie env ProjectID_at auth cookie tr
             = (Err wrapped, tr1)) ∧
  (∀ idToken duration, CreateSessionCookie env auth idToken duration tr
                       = (Err wrapped, tr1)) ∧
  (∀ email, GetUserByEmail env acc auth email (tr, xs) = (Err wrapped, (tr1, xs))) ∧
  (∀ properties, CreateUser env acc auth properties (tr, xs)
                 = (Err wrapped, (tr1, xs))) ∧
  (∀ uid, DeleteUser env acc auth uid (tr, xs) = (Err wrapped, (tr1, xs))) ∧
  (∀ uid properties, UpdateUser env acc auth uid properties (tr, xs)
                     = (Err wrapped, (tr1, xs))) ∧
  (∀ uid, RevokeRefreshTokens env acc auth uid (tr, xs) = (Err wrapped, (tr1, xs))).
Proof.
  intros Hts wrapped tr1.
  assert (Hgate : ∀ A (k : TokenSource → IO A),
            (wrapping "Error ensuring token source" (ensureTokenSource env auth)
               ≫= k) tr = (Err wrapped, tr1)).
  { intros A k. unfold mbind, IO_bind, wrapping, ensureTokenSource, ask.
    by rewrite Hts. }
  assert (Hgate' : ∀ A (k : TokenSource → AIO UP A),
            (with_token_source env auth ≫= k) (tr, xs)
            = (Err wrapped, (tr1, xs))).
  { intros A k. unfold mbind, AIO_bind.
    by rewrite with_token_source_run, Hts. }
  repeat split; intros; first [apply Hgate | apply Hgate'].
Qed.

(** X17. The two public checks contradict one another: whenever
    [VerifySessionCookieAndCheckRevoked] returns an account record,
    [CheckRevoked] on the same cookie in the same state answers true, and
    whenever [CheckRevoked] answers false,
    [VerifySessionCookieAndCheckRevoked] fails with "Token has been
    revoked". *)
Theorem Auth_checks_contradict auth (cookie : string) tr :
  (∀ user tr',
     VerifySessionCookieAndCheckRevoked env ProjectID_at auth cookie tr = (Ok user, tr') →
     (CheckRevoked env ProjectID_at auth cookie tr).1 = Ok true) ∧
  ((CheckRevoked env ProjectID_at auth cookie tr).1 = Ok false →
   (VerifySessionCookieAndCheckRevoked env ProjectID_at auth cookie tr).1
   = Err errRevoked).
Proof.
  rewrite VerifySessionCookieAndCheckRevoked_run, CheckRevoked_run.
  destruct (ensureTokenSource_ env tr auth) as [ts'|e0]; [|split; discriminate].
  set (p := ProjectID_at (tr ++ [ev_ensureTokenSource]) auth).
  set (h := {| h_ts := Some ts' |}). set (tr1 := tr ++ [ev_ensureTokenSource]).
  split.
  - intros user tr' Hok.
    by destruct (verifySessionCookieAndCheckRevoked_accepts
                   env h p cookie tr1 user tr' Hok)
      as (? & ? & ? & _ & _ & _ & _ & _ & ?).
  - unfold checkSessionCookieRevoked, verifySessionCookieAndCheckRevoked.
    unfold mbind, IO_bind.
    destruct (verifySessionCookie env h p cookie tr1) as [[t|e] tr2];
      [|discriminate].
    by destruct (checkRevoked env h t tr2) as [[[]|e] tr3].
Qed.

(** X18. [VerifySessionCookie] makes no revocation check: for a cookie that
    verifies it ensures the token source a second time and returns whatever
    the account lookup under the token's user-id returns, whatever the
    record says about the validity of tokens. *)
Theorem VerifySessionCookie_returns_lookup
    auth (cookie : string) tr (ts1 ts2 : TokenSource) (t : Token) tr1 :
  ensureTokenSource_ env tr auth = Ok ts1 →
  verifySessionCookie env {| h_ts := Some ts1 |}
    (ProjectID_at (tr ++ [ev_ensureTokenSource]) auth) cookie
    (tr ++ [ev_ensureTokenSource]) = (Ok t, tr1) →
  ensureTokenSource_ env tr1 auth = Ok ts2 →
  VerifySessionCookie env ProjectID_at auth cookie tr =
  (getAccountByUID_ env (tr1 ++ [ev_ensureTokenSource]) {| h_ts := Some ts2 |} (UID t),
   tr1 ++ [ev_ensureTokenSource; ev_getAccountByUID (UID t)]).
Proof.
  intros Hts1 Hverify Hts2. unfold VerifySessionCookie.
  unfold mbind at 1, IO_bind at 1. unfold wrapping, ensureTokenSource, ask.
  rewrite Hts1.
  unfold mbind at 1, IO_bind at 1. unfold peek.
  unfold mbind at 1, IO_bind at 1. rewrite Hverify.
  by rewrite GetUser_run, Hts2.
Qed.

(** X19. [UpdateUser] looks the record up under the user-id the update
    returned, not under the one it was called with, and returns the outcome
    of that lookup as it is: when the lookup fails, the caller gets its error
    although the update has been made. *)
Theorem UpdateUser_returns_lookup
    auth (uid uid' : string) (properties : UP) tr xs (ts' : TokenSource) :
  ensureTokenSource_ env tr auth = Ok ts' →
  updateExistingAccount_ acc (tr ++ [ev_ensureTokenSource], xs)
    {| h_ts := Some ts' |} uid properties = Ok uid' →
  UpdateUser env acc auth uid properties (tr, xs) =
  (getAccountByUID_ env (tr ++ [ev_ensureTokenSource]) {| h_ts := Some ts' |} uid',
   (tr ++ [ev_ensureTokenSource; ev_getAccountByUID uid'],
    xs ++ [ev_updateExistingAccount uid properties])).
Proof.
  intros Hts Hupd. rewrite UpdateUser_run, Hts. cbn zeta. rewrite Hupd.
  by rewrite <- app_assoc.
Qed.

Lemma RevokeRefreshTokens_run auth (uid : string) tr xs :
  RevokeRefreshTokens env acc auth uid (tr, xs) =
  match ensureTokenSource_ env tr auth with
  | Err e0 =>
      (Err (errors_Wrap e0 "Error ensuring token source"),
       (tr ++ [ev_ensureTokenSource], xs))
  | Ok _ =>
      match GetUser env auth uid (tr ++ [ev_ensureTokenSource]) with
      | (Err e, tr2) => (Err e, (tr2, xs))
      | (Ok user, tr2) =>
          if negb (String.eqb (ur_UID user) uid)
          then (Err errUserIDMismatch, (tr2, xs))
          else
            let now := time_Now_ acc (tr2, xs) in
            let properties := SetValidSince_ acc (UserProperties_zero acc) now in
            match UpdateUser env acc auth uid properties (tr2, xs ++ [ev_time_Now]) with
            | (Err e, w') => (Err e, w')
            | (Ok _, w') => (Ok tt, w')
            end
      end
  end.
Proof.
  unfold RevokeRefreshTokens. unfold mbind at 1, AIO_bind at 1.
  rewrite with_token_source_run.
  destruct (ensureTokenSource_ env tr auth) as [ts'|e0]; [|done].
  unfold mbind at 1, AIO_bind at 1. unfold on_trace. cbn [fst snd].
  destruct (GetUser env auth uid (tr ++ [ev_ensureTokenSource]))
    as [[user|e] tr2]; [|done].
  destruct (negb (String.eqb (ur_UID user) uid)); [done|].
  unfold mbind at 1, AIO_bind at 1. unfold time_Now, account_ask. cbn [fst snd].
  unfold mbind, AIO_bind.
  by destruct (UpdateUser _ _ _ _ _ _) as [[?|?] ?].
Qed.

(** X20. [RevokeRefreshTokens] checks the record it looked up: when the
    record's UID is not the requested one, it fails with "User id match
    failed" before the clock is read and before any update is asked for. *)
Theorem RevokeRefreshTokens_uid_mismatch
    auth (uid : string) tr xs (ts1 : TokenSource) (user : UserRecord) tr2 :
  ensureTokenSource_ env tr auth = Ok ts1 →
  GetUser env auth uid (tr ++ [ev_ensureTokenSource]) = (Ok user, tr2) →
  ur_UID user ≠ uid →
  RevokeRefreshTokens env acc auth uid (tr, xs) = (Err errUserIDMismatch, (tr2, xs)).
Proof.
  intros Hts Huser Hne. rewrite RevokeRefreshTokens_run, Hts, Huser.
  apply String.eqb_neq in Hne. by rewrite Hne.
Qed.

(** X21. When [RevokeRefreshTokens] returns nil, a lookup has returned a
    record with the requested UID, and the account operations it made are the
    reading of the clock and one update, for the requested user-id, whose
    properties are the empty properties with valid-since set to that
    reading. *)
Theorem RevokeRefreshTokens_success auth (uid : string) tr xs w' :
  RevokeRefreshTokens env acc auth uid (tr, xs) = (Ok tt, w') →
  ∃ (user : UserRecord) tr2,
    GetUser env auth uid (tr ++ [ev_ensureTokenSource]) = (Ok user, tr2) ∧
    ur_UID user = uid ∧
    w'.2 = xs ++ [ev_time_Now;
                  ev_updateExistingAccount uid
                    (SetValidSince_ acc (UserProperties_zero acc)
                       (time_Now_ acc (tr2, xs)))].
Proof.
  rewrite RevokeRefreshTokens_run.
  destruct (ensureTokenSource_ env tr auth) as [ts1|e0]; [|discriminate].
  destruct (GetUser env auth uid (tr ++ [ev_ensureTokenSource]))
    as [[user|e] tr2]; [|discriminate].
  destruct (String.eqb (ur_UID user) uid) eqn:Heq; cbn [negb]; [|discriminate].
  apply String.eqb_eq in Heq. cbn zeta.
  rewrite UpdateUser_run.
  destruct (ensureTokenSource_ env tr2 auth) as [ts3|e0]; [|discriminate].
  cbn zeta.
  destruct (updateExistingAccount_ _ _ _ _ _) as [uid'|e]; [|discriminate].
  destruct (getAccountByUID_ _ _ _ _) as [user'|e]; [|discriminate].
  intros [= <-]. exists user, tr2. repeat split; [done|].
  cbn. by rewrite <- app_assoc.
Qed.

(** X22. Passing no duration to [CreateSessionCookie] is passing five days:
    the two calls return the same result and leave the same trace. *)
Theorem CreateSessionCookie_default_is_five_days auth (idToken : string) tr :
  CreateSessionCookie env auth idToken None tr =
  CreateSessionCookie env auth idToken (Some (time_Hour * 24 * 5)) tr.
Proof.
  rewrite !CreateSessionCookie_run.
  destruct (ensureTokenSource_ env tr auth); [|done].
  destruct (VerifyIDToken env auth idToken (tr ++ [ev_ensureTokenSource]))
    as [[tok|e] tr2]; [|done].
  by rewrite default_expiry.
Qed.

End AuthOperations.

(** *** Runs of the operations of Auth *)

Lemma no_token_source_no_backend_witness :
  ensureTokenSource_ env_no_token_source [] demo_auth = Err errNoTokenSource ∧
  GetUser env_no_token_source demo_auth "alice" []
    = (Err (errors_Wrap errNoTokenSource "Error ensuring token source"),
       [ev_ensureTokenSource]) ∧
  RevokeRefreshTokens env_no_token_source acc_ok demo_auth "alice" ([], [])
    = (Err (errors_Wrap errNoTokenSource "Error ensuring token source"),
       ([ev_ensureTokenSource], [])).
Proof.
  split; [reflexivity|].
  pose proof (no_token_source_no_backend env_no_token_source acc_ok
                (fun _ _ => "demo") demo_auth [] [] errNoTokenSource eq_refl)
    as (Hget & _ & _ & _ & _ & _ & _ & _ & _ & Hrevoke).
  split; [apply Hget | apply Hrevoke].
Defined.

Lemma VerifySessionCookie_returns_lookup_witness :
  ensureTokenSource_ (env_ok alice_token (user_with "alice" 200000)) [] demo_auth
    = Ok (token_source 0) ∧
  VerifySessionCookie (env_ok alice_token (user_with "alice" 200000))
    (fun _ _ => "demo") demo_auth "cookie" []
  = (Ok (user_with "alice" 200000),
     [ev_ensureTokenSource; ev_newIDTokenVerifier "demo";
      ev_VerifyToken "demo" "cookie"; ev_ensureTokenSource;
      ev_getAccountByUID "alice"]).
Proof.
  split; [reflexivity|].
  exact (VerifySessionCookie_returns_lookup
           (env_ok alice_token (user_with "alice" 200000)) (fun _ _ => "demo")
           demo_auth "cookie" [] (token_source 0) (token_source 0) alice_token _
           eq_refl eq_refl eq_refl).
Defined.

Lemma UpdateUser_returns_lookup_witness :
  ensureTokenSource_ (env_ok alice_token (user_with "alice" 0)) [] demo_auth
    = Ok (token_source 0) ∧
  UpdateUser (env_ok alice_token (user_with "alice" 0)) acc_ok demo_auth "alice"
    [("validSince", 5)] ([], [])
  = (Ok (user_with "alice" 0),
     ([ev_ensureTokenSource; ev_getAccountByUID "alice"],
      [ev_updateExistingAccount "alice" [("validSince", 5)]])).
Proof.
  split; [reflexivity|].
  exact (UpdateUser_returns_lookup (env_ok alice_token (user_with "alice" 0)) acc_ok
           demo_auth "alice" "alice" [("validSince", 5)] [] [] (token_source 0)
           eq_refl eq_refl).
Defined.

Lemma RevokeRefreshTokens_uid_mismatch_witness :
  ur_UID (user_with "bob" 0) ≠ "alice" ∧
  RevokeRefreshTokens (env_ok alice_token (user_with "bob" 0)) acc_ok demo_auth
    "alice" ([], [])
  = (Err errUserIDMismatch,
     ([ev_ensureTokenSource; ev_ensureTokenSource; ev_getAccountByUID "alice"], [])).
Proof.
  assert (Hne : ur_UID (user_with "bob" 0) ≠ "alice") by discriminate.
  split; [exact Hne|].
  exact (RevokeRefreshTokens_uid_mismatch
           (env_ok alice_token (user_with "bob" 0)) acc_ok demo_auth "alice" [] []
           (token_source 0) (user_with "bob" 0) _ eq_refl eq_refl Hne).
Defined.

Lemma RevokeRefreshTokens_success_witness :
  RevokeRefreshTokens (env_ok alice_token (user_with "alice" 0)) acc_ok demo_auth
    "alice" ([], [])
  = (Ok tt,
     ([ev_ensureTokenSource; ev_ensureTokenSource; ev_getAccountByUID "alice";
       ev_ensureTokenSource; ev_getAccountByUID "alice"],
      [ev_time_Now; ev_updateExistingAccount "alice" [("validSince", 1700000000)]])) ∧
  ∃ (user : UserRecord) tr2,
    GetUser (env_ok alice_token (user_with "alice" 0)) demo_auth "alice"
      ([] ++ [ev_ensureTokenSource]) = (Ok user, tr2) ∧
    ur_UID user = "alice" ∧
    [ev_time_Now; ev_updateExistingAccount "alice" [("validSince", 1700000000)]]
    = [] ++ [ev_time_Now;
             ev_updateExistingAccount "alice"
               (SetValidSince_ acc_ok (UserProperties_zero acc_ok)
                  (time_Now_ acc_ok (tr2, [])))].
Proof.
  split; [reflexivity|].
  exact (RevokeRefreshTokens_success (env_ok alice_token (user_with "alice" 0))
           acc_ok demo_auth "alice" [] [] _ eq_refl).
Defined.

(** X23. [VerifyIDTokenWithTransport] makes no use of the transport it is
    given: with any transport it does what [VerifyIDToken] does.  When the
    service account cannot be ensured, both return that error as it is, not
    wrapped, and no verifier is built. *)
Theorem VerifyIDTokenWithTransport_ignores_transport
    (env : Env Token) (a : Auth) (tokenString : string)
    (transport : option RoundTripper) (tr : Trace) :
  VerifyIDTokenWithTransport env a tokenString transport tr
  = VerifyIDToken env a tokenString tr ∧
  (∀ e, ensureServiceAccount_ env tr (options (app a)) = Err e →
        VerifyIDTokenWithTransport env a tokenString transport tr
        = (Err e, tr ++ [ev_ensureServiceAccount])).
Proof.
  split; [reflexivity|].
  intros e He.
  change (VerifyIDToken env a tokenString tr = (Err e, tr ++ [ev_ensureServiceAccount])).
  by rewrite (VerifyIDToken_run env a {| h_ts := None |}), He.
Qed.
